(** * House orientation: a shallow embedding of the geometric core

    The three scripts of the repository (house_orientation.py,
    house_orientation_v2.py, improved_orientation.py) compute a compass
    bearing from clicked points, OCR label centroids or road geometry.

    Numbers.  Python floats are idealised as real numbers ([R]): every
    arithmetic operation is the exact one, so rounding, overflow, NaN and
    the sign of an IEEE zero are not represented.  The one place where the
    program can observe the sign of a zero is [math.atan2] on a zero vector;
    its value there is a parameter of the development ([atan2_zero]).
    Where rounding decides what a function returns, the function is given
    a second time on binary64 floats (module [Binary64]), and where an
    infinity or a NaN decides it, on reals extended with these values.

    Effects.  Exceptions are values of [result]; what the interactive and
    network collaborators hand back (clicked points, OCR boxes, geocoded
    coordinates, fetched roads) are arguments of the embedded functions. *)

From Stdlib Require Import Reals Lra Lia Psatz ZArith List String DecimalString.
From Stdlib Require Import Permutation.
From Stdlib Require Floats.
Import ListNotations.
Open Scope R_scope.

(** ** Exceptions *)

Inductive exn : Type :=
| RuntimeError (msg : string)
| ValueError (msg : string)
| AttributeError (msg : string).

Inductive result (A : Type) : Type :=
| Ok (a : A)
| Raise (e : exn).

Arguments Ok {A} a.
Arguments Raise {A} e.

Definition bind {A B : Type} (c : result A) (k : A -> result B) : result B :=
  match c with
  | Ok a => k a
  | Raise e => Raise e
  end.

Notation "x <- c ;; k" := (bind c (fun x => k))
  (at level 61, c at next level, right associativity).

Definition raises {A : Type} (c : result A) : Prop :=
  exists e, c = Raise e.

(** The outcome of code whose only failure is a subscript [d[key]] on a
    dict that lacks [key]. *)
Inductive lookup (A : Type) : Type :=
| Found (a : A)
| KeyError (key : string).

Arguments Found {A} a.
Arguments KeyError {A} key.

(** ** Points and lines *)

Definition point : Type := (R * R)%type.
Definition linestring : Type := list point.

(** ** The Python and math-library primitives the scripts use *)

Module Py.

(** [a // b] on floats: the floor of the quotient, still a float. *)
Definition floordiv (a b : R) : R := IZR (Zfloor (a / b)).

(** [a % b] on floats, for a non-zero [b]: the remainder has the sign of
    the divisor. *)
Definition fmod (a b : R) : R := a - b * IZR (Zfloor (a / b)).

(** [int(x)]: truncation toward zero. *)
Definition int (x : R) : Z :=
  if Rle_dec 0 x then Zfloor x else Zceil x.

(** [math.hypot(x, y)]. *)
Definition hypot (x y : R) : R := sqrt (x * x + y * y).

(** [math.degrees(r)]. *)
Definition degrees (r : R) : R := r * (180 / PI).

(** [math.atan2(y, x)].  Away from the origin this is the angle of the
    point (x, y) in (-pi, pi].  At the origin the C library answers 0 or
    +-pi according to the signs of the two zeros; [zero] stands for that
    answer. *)
Definition atan2 (zero : R) (y x : R) : R :=
  if Rlt_dec 0 x then atan (y / x)
  else if Rlt_dec x 0 then
    (if Rle_dec 0 y then atan (y / x) + PI else atan (y / x) - PI)
  else if Rlt_dec 0 y then PI / 2
  else if Rlt_dec y 0 then - (PI / 2)
  else zero.

(** Rounding of a real to the nearest integer, ties to the even one. *)
Definition round_half_even (x : R) : Z :=
  let f := Zfloor x in
  if Rlt_dec (x - IZR f) (1 / 2) then f
  else if Rlt_dec (1 / 2) (x - IZR f) then (f + 1)%Z
  else if Z.even f then f else (f + 1)%Z.

(** [round(x, 2)]. *)
Definition round2 (x : R) : R := IZR (round_half_even (x * 100)) / 100.

(** [str(n)] for a length or a count. *)
Definition str_nat (n : nat) : string := NilZero.string_of_uint (Nat.to_uint n).

(** [min(x :: l, key=key)]: the running best is replaced only by a
    strictly smaller key, so the first minimal element wins. *)
Fixpoint min_by {A : Type} (key : A -> R) (best : A) (l : list A) : A :=
  match l with
  | [] => best
  | x :: rest =>
      if Rlt_dec (key x) (key best) then min_by key x rest
      else min_by key best rest
  end.

(** [np.mean(pts, axis=0)]: the centroid of a list of points. *)
Definition mean_points (pts : list point) : point :=
  let n := INR (List.length pts) in
  (fold_right Rplus 0 (map fst pts) / n, fold_right Rplus 0 (map snd pts) / n).

(** [np.linalg.norm(v)] of a 2-vector. *)
Definition norm (v : point) : R := sqrt (fst v * fst v + snd v * snd v).

End Py.

(** ** Binary64 arithmetic

    The operations of Python's [float] that the angle normalisation uses,
    on IEEE 754 binary64 numbers. *)

Module Binary64.

Import Floats.
Local Open Scope float_scope.

(** C's [fmod(x, y)]: the remainder of x by y with the quotient truncated
    toward zero.  It is exact and has the sign of x. *)
Definition fmod (x y : float) : float :=
  match Prim2SF x, Prim2SF y with
  | S754_nan, _ | _, S754_nan => nan
  | S754_infinity _, _ => nan
  | _, S754_zero _ => nan
  | _, S754_infinity _ => x
  | S754_zero _, _ => x
  | S754_finite sx mx ex, S754_finite _ my ey =>
      let e := Z.min ex ey in
      let r := Z.rem (Z.pos mx * 2 ^ (ex - e)) (Z.pos my * 2 ^ (ey - e)) in
      if (r =? 0)%Z then (if sx then neg_zero else zero)
      else SF2Prim (binary_normalize prec emax (if sx then - r else r) e false)
  end.

(** [x % y] on floats, for a non-zero [y]: CPython takes [fmod(x, y)] and,
    when its sign differs from that of [y], adds [y] to it; the addition
    rounds.  A zero remainder gets the sign of [y]. *)
Definition modulo (x y : float) : float :=
  let m := fmod x y in
  if m =? 0 then (if y <? 0 then neg_zero else zero)
  else if Bool.eqb (y <? 0) (m <? 0) then m else m + y.

(** house_orientation.py, [normalize_angle_deg]. *)
Definition normalize_angle_deg (a : float) : float :=
  let a := modulo a 360 in
  if a <? 0 then a + 360 else a.

End Binary64.

Section Orientation.

(** What [math.atan2] returns on a zero vector (see [Py.atan2]). *)
Variable atan2_zero : R.

(** *** house_orientation.py: math helpers *)

(** In exact arithmetic; [Binary64.normalize_angle_deg] is the same
    function on binary64 floats. *)
Definition normalize_angle_deg (a : R) : R :=
  let a := Py.fmod a 360 in
  if Rlt_dec a 0 then a + 360 else a.

Definition bearing_from_vector (dx dy : R) : R :=
  let rad := Py.atan2 atan2_zero dx (- dy) in
  let deg := Py.degrees rad in
  normalize_angle_deg deg.

Definition dirs : list string :=
  ["N"; "NE"; "E"; "SE"; "S"; "SW"; "W"; "NW"]%string.

(** The sector index of [compass_8]; [% 8] keeps it in 0..7, so the
    table lookup below never leaves the table. *)
Definition compass_index (bearing_deg : R) : Z :=
  (Py.int (Py.floordiv (bearing_deg + 22.5) 45) mod 8)%Z.

Definition compass_8 (bearing_deg : R) : string :=
  nth (Z.to_nat (compass_index bearing_deg)) dirs EmptyString.

Definition midpoint (p1 p2 : point) : point :=
  ((fst p1 + fst p2) / 2, (snd p1 + snd p2) / 2).

Definition subtract (p1 p0 : point) : point :=
  (fst p1 - fst p0, snd p1 - snd p0).

Definition dot (u v : point) : R :=
  fst u * fst v + snd u * snd v.

Definition perp (v : point) : point := (- snd v, fst v).

Definition scale (v : point) (s : R) : point := (fst v * s, snd v * s).

Definition unit (v : point) : point :=
  let n := Py.hypot (fst v) (snd v) in
  if Req_dec_T n 0 then (0, 0) else (fst v / n, snd v / n).

(** *** house_orientation.py: interaction and workflows *)

(** [get_points]: [clicked] is what [plt.ginput(n)] handed back. *)
Definition get_points (clicked : list point) (n : nat) : result (list point) :=
  if Nat.eqb (List.length clicked) n then Ok clicked
  else Raise (RuntimeError
         ("Expected " ++ Py.str_nat n ++ " points, got "
            ++ Py.str_nat (List.length clicked) ++ ".")%string).

Definition workflow_vector (clicked : list point) : result (R * string) :=
  pts <- get_points clicked 2 ;;
  let p0 := nth 0 pts (0, 0) in
  let p1 := nth 1 pts (0, 0) in
  let v := subtract p1 p0 in
  let b := bearing_from_vector (fst v) (snd v) in
  let c := compass_8 b in
  Ok (b, c).

(** The locals of [workflow_frontage], as functions of the four points. *)
Definition frontage_f_u (h0 h1 : point) : point := unit (subtract h1 h0).

Definition frontage_n_left (h0 h1 : point) : point :=
  unit (perp (frontage_f_u h0 h1)).

Definition frontage_n_right (h0 h1 : point) : point :=
  unit (scale (frontage_n_left h0 h1) (-1)).

Definition frontage_to_street (h0 h1 s0 s1 : point) : point :=
  let fm := midpoint h0 h1 in
  let sm := midpoint s0 s1 in
  unit (subtract sm fm).

(** Line 121: [n_left if dot(n_left, to_street) >= dot(n_right, to_street)
    else n_right]. *)
Definition pick_normal (n_left n_right to_street : point) : point :=
  if Rge_dec (dot n_left to_street) (dot n_right to_street)
  then n_left else n_right.

Definition frontage_n_face (h0 h1 s0 s1 : point) : point :=
  pick_normal (frontage_n_left h0 h1) (frontage_n_right h0 h1)
              (frontage_to_street h0 h1 s0 s1).

Definition workflow_frontage (house_clicked street_clicked : list point)
  : result (R * string) :=
  house_pts <- get_points house_clicked 2 ;;
  street_pts <- get_points street_clicked 2 ;;
  let h0 := nth 0 house_pts (0, 0) in
  let h1 := nth 1 house_pts (0, 0) in
  let s0 := nth 0 street_pts (0, 0) in
  let s1 := nth 1 street_pts (0, 0) in
  let n_face := frontage_n_face h0 h1 s0 s1 in
  let b := bearing_from_vector (fst n_face) (snd n_face) in
  let c := compass_8 b in
  Ok (b, c).

(** *** house_orientation_v2.py *)

Definition bearing_from_vec (dx dy : R) : R :=
  Py.fmod (Py.degrees (Py.atan2 atan2_zero dx (- dy))) 360.

Definition compass8 (b : R) : string :=
  nth (Z.to_nat (Py.int (Py.floordiv (b + 22.5) 45) mod 8)) dirs EmptyString.

(** The locals of [find_orientation]: the centroids labelled with the
    target, the long words taken for road names, and the key [min]
    ranks them by. *)
Definition house_points (texts : list (string * point)) (target_label : string)
  : list point :=
  map snd (filter (fun tp => String.eqb (fst tp) target_label) texts).

Definition road_candidates (texts : list (string * point))
  : list (string * point) :=
  filter (fun tp => Nat.ltb 4 (String.length (fst tp))) texts.

Definition road_key (house : point) (tp : string * point) : R :=
  Py.norm (subtract (snd tp) house).

(** [find_orientation]: [texts] is what [get_text_boxes] read off the
    image, [target_label] is [str(target_label)].  The function prints
    its answer; the result is the triple it prints: the compass label,
    the bearing and the road word. *)
Definition find_orientation (texts : list (string * point)) (target_label : string)
  : result (string * R * string) :=
  match house_points texts target_label with
  | [] => Raise (ValueError ("Could not find label " ++ target_label)%string)
  | _ :: _ =>
      let house := Py.mean_points (house_points texts target_label) in
      match road_candidates texts with
      | [] => Raise (ValueError "No road label detected")
      | c :: rest =>
          let tp := Py.min_by (road_key house) c rest in
          let road := fst tp in
          let road_point := snd tp in
          let dx := fst road_point - fst house in
          let dy := snd road_point - snd house in
          let b := bearing_from_vec dx dy in
          let dir8 := compass8 b in
          Ok (dir8, b, road)
      end
  end.

(** *** improved_orientation.py *)

Definition bearing_from_point_to_point (px py qx qy : R) : R :=
  let dx := qx - px in
  let dy := qy - py in
  let theta := Py.degrees (Py.atan2 atan2_zero dy dx) in
  Py.fmod (90 - theta) 360.

Definition bearing_to_compass (bearing_deg : R) : string :=
  let idx := (Py.int (Py.floordiv (bearing_deg + 22.5) 45) mod 8)%Z in
  nth (Z.to_nat idx) dirs EmptyString.

(** The dictionary [nearest_road_bearing_from_address] returns; a key
    the branch taken does not set is [None], and [rep_bearing_deg] is
    [None] for Python's [None] as well. *)
Record road_report : Type := {
  rep_lat : R;
  rep_lon : R;
  rep_bearing_deg : option R;
  rep_compass : option string;
  rep_distance_to_road_m : option R;
  rep_note : option string
}.

Section Collaborators.

(** pyproj's forward transform and the three shapely operations. *)
Variable to_3857_xy : R -> R -> point.
Variable distance : point -> linestring -> R.
Variable project : linestring -> point -> R.
Variable interpolate : linestring -> R -> point.

(** [LineString([to_3857_xy(x, y) for (x, y) in road_ll.coords])]. *)
Definition project_road (road_ll : linestring) : linestring :=
  map (fun c => to_3857_xy (fst c) (snd c)) road_ll.

(** [d < best_dist] for a finite distance [d], where [None] is the
    initial state [best = None], [best_dist = inf].  Distances that are an
    infinity or a NaN are treated in [nearest_road_ext]. *)
Definition closer (d : R) (best : option (linestring * R)) : bool :=
  match best with
  | None => true
  | Some (_, best_dist) => if Rlt_dec d best_dist then true else false
  end.

(** The [for road_ll in roads] loop; [best] and [best_dist] are only
    ever assigned together and travel as one pair. *)
Fixpoint nearest_road (p : point) (roads : list linestring)
         (best : option (linestring * R)) : option (linestring * R) :=
  match roads with
  | [] => best
  | road_ll :: rest =>
      let road_xy := project_road road_ll in
      let d := distance p road_xy in
      if closer d best then nearest_road p rest (Some (road_xy, d))
      else nearest_road p rest best
  end.

(** [lon], [lat] are what [geocode(address)] returned and [roads] what
    [fetch_nearby_roads] returned. *)
Definition nearest_road_bearing_from_address (lon lat : R)
           (roads : list linestring) : result road_report :=
  match roads with
  | [] =>
      Ok {| rep_lat := lat; rep_lon := lon; rep_bearing_deg := None;
            rep_compass := None; rep_distance_to_road_m := None;
            rep_note := Some "No roads found nearby"%string |}
  | _ :: _ =>
      let p := to_3857_xy lon lat in
      match nearest_road p roads None with
      | None =>
          Raise (AttributeError
                   "'NoneType' object has no attribute 'interpolate'")
      | Some (best, best_dist) =>
          let q := interpolate best (project best p) in
          let bearing :=
            bearing_from_point_to_point (fst p) (snd p) (fst q) (snd q) in
          Ok {| rep_lat := lat; rep_lon := lon;
                rep_bearing_deg := Some (Py.round2 bearing);
                rep_compass := Some (bearing_to_compass bearing);
                rep_distance_to_road_m := Some (Py.round2 best_dist);
                rep_note := None |}
      end
  end.

End Collaborators.

(** *** The shapely operations of the road search

    shapely is a third-party library and no file of the repository
    defines these operations; they follow section 4.4 of the
    specification and the library's documentation. *)

(** Modelled from the spec: the Euclidean distance between two points. *)
Definition euclid (p q : point) : R :=
  Py.hypot (fst q - fst p) (snd q - snd p).

(** Modelled from the spec: the point at fraction [t] of the segment
    from [a] to [b]. *)
Definition along (a b : point) (t : R) : point :=
  (fst a + t * (fst b - fst a), snd a + t * (snd b - snd a)).

(** Modelled from the spec: the position of the perpendicular foot of
    [p] on the line through [a] and [b], as a fraction of the segment
    (0 at [a], 1 at [b]). *)
Definition foot_param (p a b : point) : R :=
  dot (subtract p a) (subtract b a) / dot (subtract b a) (subtract b a).

(** Modelled from the spec: a foot that falls outside the segment is
    moved to the nearer end, fraction 0 or 1. *)
Definition clamp01 (t : R) : R := Rmax 0 (Rmin 1 t).

(** Modelled from the spec: the nearest point of a segment is the
    perpendicular foot when it falls within the segment and the nearer
    endpoint otherwise; a segment of length zero is its one point. *)
Definition seg_param (p a b : point) : R :=
  if Req_dec_T (dot (subtract b a) (subtract b a)) 0 then 0
  else clamp01 (foot_param p a b).

(** Modelled from the spec: the nearest point of the segment from [a] to
    [b] to the point [p]. *)
Definition seg_nearest (p a b : point) : point := along a b (seg_param p a b).

(** Modelled from the spec: the distance from [p] to the segment. *)
Definition seg_distance (p a b : point) : R := euclid p (seg_nearest p a b).

(** Modelled from the spec: [p.distance(line)], the least distance from
    [p] to the connected polyline. *)
Fixpoint shapely_distance (p : point) (l : linestring) : R :=
  match l with
  | [] => 0
  | a :: tl =>
      match tl with
      | [] => euclid p a
      | b :: _ => Rmin (seg_distance p a b) (shapely_distance p tl)
      end
  end.

(** Modelled from the spec: [line.project(p)], the distance along the
    line to the point of the line nearest to [p] (the first such point
    in line order). *)
Fixpoint shapely_project (l : linestring) (p : point) : R :=
  match l with
  | [] => 0
  | a :: tl =>
      match tl with
      | [] => 0
      | b :: _ =>
          if Rle_dec (seg_distance p a b) (shapely_distance p tl)
          then seg_param p a b * euclid a b
          else euclid a b + shapely_project tl p
      end
  end.

(** Modelled from the spec: [line.interpolate(d)], the point at distance
    [d >= 0] along the line, the last point when [d] exceeds its length. *)
Fixpoint shapely_interpolate (l : linestring) (d : R) : point :=
  match l with
  | [] => (0, 0)
  | a :: tl =>
      match tl with
      | [] => a
      | b :: _ =>
          if Rle_dec d (euclid a b) then along a b (d / euclid a b)
          else shapely_interpolate tl (d - euclid a b)
      end
  end.

(** The road search with shapely's operations plugged in. *)
Definition nearest_road_bearing (to_3857_xy : R -> R -> point)
           (lon lat : R) (roads : list linestring) : result road_report :=
  nearest_road_bearing_from_address
    to_3857_xy shapely_distance shapely_project shapely_interpolate
    lon lat roads.

(** A projection for inputs that are planar metres already; it runs the
    road search on plane test data. *)
Definition planar_xy (x y : R) : point := (x, y).

(** The segments of a polyline, in order. *)
Fixpoint segments (l : linestring) : list (point * point) :=
  match l with
  | [] => []
  | a :: tl =>
      match tl with
      | [] => []
      | b :: _ => (a, b) :: segments tl
      end
  end.

(** *** The frontage resolver with the two labels exchanged

    The same selection as [frontage_n_face], written with the names
    [n_left] and [n_right] swapped: the variable called [n_left] holds
    the clockwise normal and [n_right] the counter-clockwise one. *)
Definition frontage_n_face_swapped (h0 h1 s0 s1 : point) : point :=
  pick_normal (frontage_n_right h0 h1) (frontage_n_left h0 h1)
              (frontage_to_street h0 h1 s0 s1).

(** [x] sits at index [i] of [l], no element of [l] has a smaller key,
    and every element before index [i] has a strictly larger one: [x] is
    the first element of [l] with the least key. *)
Definition first_minimum {A : Type} (key : A -> R) (l : list A)
           (i : nat) (x : A) : Prop :=
  nth_error l i = Some x
  /\ (forall y, In y l -> key x <= key y)
  /\ (forall j y, (j < i)%nat -> nth_error l j = Some y -> key x < key y).

(** Degrees to radians, to read a bearing as an angle. *)
Definition radians (d : R) : R := d * (PI / 180).

(** The eight sectors as the specification draws them: 45 degrees wide,
    centred on the principal directions. *)
Definition sector_label (b : R) : string :=
  (if Rlt_dec b 22.5 then "N"
   else if Rlt_dec b 67.5 then "NE"
   else if Rlt_dec b 112.5 then "E"
   else if Rlt_dec b 157.5 then "SE"
   else if Rlt_dec b 202.5 then "S"
   else if Rlt_dec b 247.5 then "SW"
   else if Rlt_dec b 292.5 then "W"
   else if Rlt_dec b 337.5 then "NW"
   else "N")%string.

(** *** improved_orientation.py: reading the fetched ways

    [fetch_nearby_roads] sends a query and walks the decoded JSON answer.
    The answer is an argument here.  A JSON object is modelled by the keys
    the function reads, each present or absent; the values under "lon" and
    "lat" are taken to be numbers and the value under "geometry" a list of
    objects, as the Overpass API documents them. *)

(** One entry of a way's "geometry" list. *)
Record geometry_point : Type := {
  pt_lon : option R;
  pt_lat : option R
}.

(** One entry of the answer's "elements" list. *)
Record element : Type := {
  el_geometry : option (list geometry_point)
}.

(** [(pt["lon"], pt["lat"])]: the subscripts are evaluated left to
    right. *)
Definition coord (pt : geometry_point) : lookup point :=
  match pt_lon pt with
  | None => KeyError "lon"
  | Some lon =>
      match pt_lat pt with
      | None => KeyError "lat"
      | Some lat => Found (lon, lat)
      end
  end.

(** [[(pt["lon"], pt["lat"]) for pt in el["geometry"]]]. *)
Fixpoint coords (geometry : list geometry_point) : lookup linestring :=
  match geometry with
  | [] => Found []
  | pt :: rest =>
      match coord pt with
      | KeyError key => KeyError key
      | Found c =>
          match coords rest with
          | KeyError key => KeyError key
          | Found cs => Found (c :: cs)
          end
      end
  end.

(** The [for el in ...] loop, with the list [roads] built so far. *)
Fixpoint fetch_loop (elements : list element) (roads : list linestring)
  : lookup (list linestring) :=
  match elements with
  | [] => Found roads
  | el :: rest =>
      match el_geometry el with
      | None => fetch_loop rest roads
      | Some geometry =>
          match coords geometry with
          | KeyError key => KeyError key
          | Found cs =>
              if (2 <=? List.length cs)%nat
              then fetch_loop rest (roads ++ [cs])
              else fetch_loop rest roads
          end
      end
  end.

(** [fetch_nearby_roads], from the decoded answer [data] of the Overpass
    call on: [data.get("elements", [])] is [None] when the key is
    absent. *)
Definition fetch_nearby_roads (data : option (list element))
  : lookup (list linestring) :=
  fetch_loop (match data with Some elements => elements | None => [] end) [].

(** *** improved_orientation.py: distances that are not finite numbers

    [p.distance(road_xy)] is a float: besides a finite number it can be
    an infinity or a NaN (the projection sends a latitude of 90 degrees to
    infinity).  The loop of [nearest_road_bearing_from_address] compares
    it with [float("inf")].  Here the distance, the one value the loop
    compares, ranges over the reals extended with these values. *)

Inductive pyfloat : Type :=
| Finite (x : R)
| PosInf
| NegInf
| NaN.

(** [a < b] on floats: false whenever a NaN takes part. *)
Definition float_lt (a b : pyfloat) : bool :=
  match a, b with
  | NaN, _ => false
  | _, NaN => false
  | Finite x, Finite y => if Rlt_dec x y then true else false
  | Finite _, PosInf => true
  | Finite _, NegInf => false
  | PosInf, _ => false
  | NegInf, NegInf => false
  | NegInf, _ => true
  end.





Section NonFiniteDistances.

Variable to_3857_xy : R -> R -> point.
Variable distance : point -> linestring -> pyfloat.
Variable project : linestring -> point -> R.
Variable interpolate : linestring -> R -> point.



End NonFiniteDistances.

(** ** Properties *)

(** *** Python arithmetic *)

Lemma fmod_range (a b : R) : 0 < b -> 0 <= Py.fmod a b < b.
Proof.
  intros Hb. unfold Py.fmod.
  destruct (Zfloor_bound (a / b)) as [Hlo Hhi].
  replace (a - b * IZR (Zfloor (a / b)))
    with (b * (a / b - IZR (Zfloor (a / b)))) by (field; lra).
  split; nra.
Qed.

Lemma fmod_shift (r b : R) (k : Z) :
  0 < b -> 0 <= r < b -> Py.fmod (r + b * IZR k) b = r.
Proof.
  intros Hb Hr. unfold Py.fmod.
  assert (Hq : (r + b * IZR k) / b = r / b + IZR k) by (field; lra).
  assert (Hf : Zfloor ((r + b * IZR k) / b) = k).
  { apply Zfloor_eq. rewrite Hq.
    assert (0 <= r / b < 1).
    { split.
      - apply Rmult_le_reg_r with b; [lra|].
        replace (r / b * b) with r by (field; lra). lra.
      - apply Rmult_lt_reg_r with b; [lra|].
        replace (r / b * b) with r by (field; lra). lra. }
    lra. }
  rewrite Hf. ring.
Qed.

Lemma int_IZR (z : Z) : Py.int (IZR z) = z.
Proof.
  unfold Py.int. destruct (Rle_dec 0 (IZR z)).
  - apply ZfloorZ.
  - unfold Zceil. rewrite ZfloorNZ. lia.
Qed.

Lemma int_floordiv (a b : R) : Py.int (Py.floordiv a b) = Zfloor (a / b).
Proof. unfold Py.floordiv. apply int_IZR. Qed.

(** The [if a < 0] branch of [normalize_angle_deg] is never taken: the
    remainder by a positive divisor is already non-negative. *)
Lemma normalize_angle_deg_fmod (a : R) : normalize_angle_deg a = Py.fmod a 360.
Proof.
  unfold normalize_angle_deg.
  destruct (fmod_range a 360) as [Hlo _]; [lra|].
  destruct (Rlt_dec (Py.fmod a 360) 0); [lra | reflexivity].
Qed.

Lemma compass_index_floor (b : R) :
  compass_index b = (Zfloor ((b + 22.5) / 45) mod 8)%Z.
Proof. unfold compass_index. now rewrite int_floordiv. Qed.

Lemma compass_index_in_table (b : R) :
  (Z.to_nat (compass_index b) < List.length dirs)%nat.
Proof.
  rewrite compass_index_floor. simpl.
  pose proof (Z.mod_pos_bound (Zfloor ((b + 22.5) / 45)) 8). lia.
Qed.

Lemma compass_8_floor (b : R) (k : Z) :
  IZR k <= (b + 22.5) / 45 < IZR k + 1 ->
  compass_8 b = nth (Z.to_nat (k mod 8)) dirs EmptyString.
Proof.
  intros Hk. unfold compass_8. rewrite compass_index_floor.
  now rewrite (Zfloor_eq k _ Hk).
Qed.

Lemma compass8_same (b : R) : compass8 b = compass_8 b.
Proof. reflexivity. Qed.

Lemma bearing_to_compass_same (b : R) : bearing_to_compass b = compass_8 b.
Proof. reflexivity. Qed.

Lemma compass_8_sector (b : R) :
  0 <= b < 360 -> compass_8 b = sector_label b.
Proof.
  intros [Hlo Hhi]. unfold sector_label.
  repeat match goal with
         | |- context [Rlt_dec ?x ?y] => destruct (Rlt_dec x y)
         end.
  - apply (compass_8_floor b 0); lra.
  - apply (compass_8_floor b 1); lra.
  - apply (compass_8_floor b 2); lra.
  - apply (compass_8_floor b 3); lra.
  - apply (compass_8_floor b 4); lra.
  - apply (compass_8_floor b 5); lra.
  - apply (compass_8_floor b 6); lra.
  - apply (compass_8_floor b 7); lra.
  - apply (compass_8_floor b 8); lra.
Qed.

Lemma fmod_small (r b : R) : 0 < b -> 0 <= r < b -> Py.fmod r b = r.
Proof.
  intros Hb Hr. replace r with (r + b * IZR 0) at 1 by (simpl; ring).
  now apply fmod_shift.
Qed.

(** *** Lengths and unit vectors *)

Lemma hypot_nonneg (x y : R) : 0 <= Py.hypot x y.
Proof. apply sqrt_pos. Qed.

Lemma hypot_sqr (x y : R) : Py.hypot x y * Py.hypot x y = x * x + y * y.
Proof. unfold Py.hypot. apply sqrt_sqrt. nra. Qed.

Lemma hypot_zero_iff (x y : R) : Py.hypot x y = 0 <-> x = 0 /\ y = 0.
Proof.
  split.
  - intros H. pose proof (hypot_sqr x y) as Hs. rewrite H in Hs.
    split; nra.
  - intros [-> ->]. unfold Py.hypot.
    replace (0 * 0 + 0 * 0) with 0 by ring. apply sqrt_0.
Qed.

Lemma hypot_one (x y : R) : x * x + y * y = 1 -> Py.hypot x y = 1.
Proof. intros H. unfold Py.hypot. rewrite H. apply sqrt_1. Qed.

Lemma unit_zero : unit (0, 0) = (0, 0).
Proof.
  unfold unit. simpl.
  destruct (Req_dec_T (Py.hypot 0 0) 0) as [_|Hn]; [reflexivity|].
  exfalso. apply Hn. now apply hypot_zero_iff.
Qed.

Lemma unit_nonzero (v : point) :
  v <> (0, 0) ->
  unit v = (fst v / Py.hypot (fst v) (snd v), snd v / Py.hypot (fst v) (snd v))
  /\ Py.hypot (fst v) (snd v) <> 0.
Proof.
  intros Hv. unfold unit.
  destruct (Req_dec_T (Py.hypot (fst v) (snd v)) 0) as [Hz|Hn].
  - exfalso. apply Hv. apply hypot_zero_iff in Hz. destruct v; simpl in *.
    destruct Hz; congruence.
  - now split.
Qed.

Lemma unit_length (v : point) :
  v <> (0, 0) -> Py.hypot (fst (unit v)) (snd (unit v)) = 1.
Proof.
  intros Hv. destruct (unit_nonzero v Hv) as [-> Hn]. simpl.
  apply hypot_one.
  pose proof (hypot_sqr (fst v) (snd v)) as Hs.
  set (n := Py.hypot (fst v) (snd v)) in *.
  replace (fst v / n * (fst v / n) + snd v / n * (snd v / n))
    with ((fst v * fst v + snd v * snd v) / (n * n)) by (field; assumption).
  rewrite <- Hs. field. assumption.
Qed.

Lemma unit_of_length_one (v : point) :
  Py.hypot (fst v) (snd v) = 1 -> unit v = v.
Proof.
  intros H. unfold unit. rewrite H.
  destruct (Req_dec_T 1 0) as [Hz|_]; [lra|].
  destruct v as [x y]. simpl. f_equal; field.
Qed.

Lemma length_one_nonzero (v : point) :
  Py.hypot (fst v) (snd v) = 1 -> v <> (0, 0).
Proof.
  intros H Hv. subst v. simpl in H.
  assert (Py.hypot 0 0 = 0) by now apply hypot_zero_iff. lra.
Qed.

Lemma perp_length (v : point) :
  Py.hypot (fst (perp v)) (snd (perp v)) = Py.hypot (fst v) (snd v).
Proof. unfold perp, Py.hypot. simpl. f_equal. ring. Qed.

Lemma scale_neg_length (v : point) :
  Py.hypot (fst (scale v (-1))) (snd (scale v (-1))) = Py.hypot (fst v) (snd v).
Proof. unfold scale, Py.hypot. simpl. f_equal. ring. Qed.

Lemma dot_perp (v : point) : dot v (perp v) = 0.
Proof. unfold dot, perp. simpl. ring. Qed.

Lemma subtract_nonzero (h0 h1 : point) : h0 <> h1 -> subtract h1 h0 <> (0, 0).
Proof.
  intros Hne Hz. apply Hne. destruct h0 as [x0 y0], h1 as [x1 y1].
  unfold subtract in Hz. simpl in Hz. inversion Hz. f_equal; lra.
Qed.

(** *** The frontage normals *)

Lemma frontage_f_u_length (h0 h1 : point) :
  h0 <> h1 ->
  Py.hypot (fst (frontage_f_u h0 h1)) (snd (frontage_f_u h0 h1)) = 1.
Proof. intros H. apply unit_length. now apply subtract_nonzero. Qed.

Lemma frontage_n_left_perp (h0 h1 : point) :
  h0 <> h1 -> frontage_n_left h0 h1 = perp (unit (subtract h1 h0)).
Proof.
  intros H. unfold frontage_n_left. apply unit_of_length_one.
  rewrite perp_length. now apply frontage_f_u_length.
Qed.

Lemma frontage_n_left_length (h0 h1 : point) :
  h0 <> h1 ->
  Py.hypot (fst (frontage_n_left h0 h1)) (snd (frontage_n_left h0 h1)) = 1.
Proof.
  intros H. rewrite frontage_n_left_perp by assumption.
  rewrite perp_length. now apply frontage_f_u_length.
Qed.

Lemma frontage_n_right_opposite (h0 h1 : point) :
  h0 <> h1 -> frontage_n_right h0 h1 = scale (frontage_n_left h0 h1) (-1).
Proof.
  intros H. unfold frontage_n_right. apply unit_of_length_one.
  rewrite scale_neg_length. now apply frontage_n_left_length.
Qed.

Lemma dot_scale_neg (u v : point) : dot (scale u (-1)) v = - dot u v.
Proof. unfold dot, scale. simpl. ring. Qed.

Lemma scale_neg_involutive (u : point) : scale (scale u (-1)) (-1) = u.
Proof. destruct u as [x y]. unfold scale. simpl. f_equal; ring. Qed.

Lemma frontage_degenerate (h : point) :
  frontage_f_u h h = (0, 0)
  /\ frontage_n_left h h = (0, 0)
  /\ frontage_n_right h h = (0, 0).
Proof.
  assert (Hf : frontage_f_u h h = (0, 0)).
  { unfold frontage_f_u, subtract.
    replace (fst h - fst h) with 0 by ring.
    replace (snd h - snd h) with 0 by ring. apply unit_zero. }
  assert (Hl : frontage_n_left h h = (0, 0)).
  { unfold frontage_n_left. rewrite Hf. unfold perp. simpl.
    rewrite Ropp_0. apply unit_zero. }
  repeat split; try assumption.
  unfold frontage_n_right. rewrite Hl. unfold scale. simpl.
  rewrite Rmult_0_l. apply unit_zero.
Qed.

(** *** Angles *)

Lemma sin_cos_period_Z (x : R) (k : Z) :
  sin (x + 2 * IZR k * PI) = sin x /\ cos (x + 2 * IZR k * PI) = cos x.
Proof.
  destruct (Z_le_gt_dec 0 k) as [Hk|Hk].
  - rewrite <- (Z2Nat.id k Hk), <- INR_IZR_INZ.
    split; [apply sin_period | apply cos_period].
  - assert (Hn : (0 <= - k)%Z) by lia.
    assert (Hx : x + 2 * IZR k * PI + 2 * INR (Z.to_nat (- k)) * PI = x).
    { rewrite INR_IZR_INZ, (Z2Nat.id _ Hn), opp_IZR. ring. }
    split.
    + rewrite <- (sin_period _ (Z.to_nat (- k))). now rewrite Hx.
    + rewrite <- (cos_period _ (Z.to_nat (- k))). now rewrite Hx.
Qed.

Lemma sqrt_one_plus_slope (x y : R) :
  x <> 0 -> sqrt (1 + (y / x)²) = Py.hypot x y / Rabs x.
Proof.
  intros Hx.
  assert (Ha : 0 < Rabs x) by now apply Rabs_pos_lt.
  pose proof (hypot_nonneg x y) as Hr.
  pose proof (hypot_sqr x y) as Hs.
  apply sqrt_lem_1.
  - unfold Rsqr. nra.
  - apply Rmult_le_pos; [assumption|]. left. now apply Rinv_0_lt_compat.
  - unfold Rsqr.
    replace (Py.hypot x y / Rabs x * (Py.hypot x y / Rabs x))
      with ((Py.hypot x y * Py.hypot x y) / (Rabs x * Rabs x)) by (field; lra).
    rewrite Hs. replace (Rabs x * Rabs x) with (x * x).
    + field. assumption.
    + unfold Rabs. destruct (Rcase_abs x); ring.
Qed.

Lemma atan2_polar (z y x : R) :
  x <> 0 \/ y <> 0 ->
  x = Py.hypot x y * cos (Py.atan2 z y x)
  /\ y = Py.hypot x y * sin (Py.atan2 z y x).
Proof.
  intros Hxy.
  assert (Hr : Py.hypot x y <> 0).
  { intros H. apply hypot_zero_iff in H. destruct H, Hxy; contradiction. }
  unfold Py.atan2.
  destruct (Rlt_dec 0 x) as [Hx|Hx].
  - rewrite cos_atan, sin_atan, sqrt_one_plus_slope by lra.
    rewrite Rabs_pos_eq by lra. split; field; split; lra.
  - destruct (Rlt_dec x 0) as [Hx'|Hx'].
    + assert (Hc : cos (atan (y / x)) = - x / Py.hypot x y).
      { rewrite cos_atan, sqrt_one_plus_slope by lra.
        rewrite Rabs_left by lra. field. split; lra. }
      assert (Hsn : sin (atan (y / x)) = - y / Py.hypot x y).
      { rewrite sin_atan, sqrt_one_plus_slope by lra.
        rewrite Rabs_left by lra. field. split; lra. }
      destruct (Rle_dec 0 y).
      * rewrite neg_cos, neg_sin, Hc, Hsn. split; field; assumption.
      * unfold Rminus. rewrite cos_plus, sin_plus, cos_neg, sin_neg.
        rewrite cos_PI, sin_PI, Hc, Hsn. split; field; assumption.
    + assert (x = 0) by lra. subst x.
      assert (Hy : y <> 0) by (destruct Hxy; [lra | assumption]).
      assert (Hh : Py.hypot 0 y = Rabs y).
      { unfold Py.hypot. replace (0 * 0 + y * y) with (y²) by (unfold Rsqr; ring).
        apply sqrt_Rsqr_abs. }
      rewrite Hh.
      destruct (Rlt_dec 0 y).
      * rewrite cos_PI2, sin_PI2, Rabs_pos_eq by lra. split; ring.
      * destruct (Rlt_dec y 0); [|lra].
        rewrite cos_neg, sin_neg, cos_PI2, sin_PI2, Rabs_left by lra.
        split; ring.
Qed.

Lemma radians_degrees (r : R) : radians (Py.degrees r) = r.
Proof. unfold radians, Py.degrees. field. apply PI_neq0. Qed.

Lemma fmod_360_trig (a : R) :
  sin (radians (Py.fmod a 360)) = sin (radians a)
  /\ cos (radians (Py.fmod a 360)) = cos (radians a).
Proof.
  unfold Py.fmod.
  replace (radians (a - 360 * IZR (Zfloor (a / 360))))
    with (radians a + 2 * IZR (- Zfloor (a / 360)) * PI)
    by (unfold radians; rewrite opp_IZR; field).
  apply sin_cos_period_Z.
Qed.

Lemma hypot_swap_opp (dx dy : R) : Py.hypot (- dy) dx = Py.hypot dx dy.
Proof. unfold Py.hypot. f_equal. ring. Qed.

Lemma hypot_comm (x y : R) : Py.hypot y x = Py.hypot x y.
Proof. unfold Py.hypot. f_equal. ring. Qed.

Lemma degrees_0 : Py.degrees 0 = 0.
Proof. unfold Py.degrees. ring. Qed.

Lemma degrees_half_pi : Py.degrees (PI / 2) = 90.
Proof. unfold Py.degrees. field. apply PI_neq0. Qed.

Lemma atan2_east (z : R) : Py.atan2 z 0 1 = 0.
Proof.
  unfold Py.atan2. destruct (Rlt_dec 0 1); [|lra].
  replace (0 / 1) with 0 by field. apply atan_0.
Qed.

Lemma atan2_north (z : R) : Py.atan2 z 1 0 = PI / 2.
Proof.
  unfold Py.atan2.
  destruct (Rlt_dec 0 0); [lra|]. destruct (Rlt_dec 0 1); [reflexivity | lra].
Qed.

Lemma atan2_origin (z : R) : Py.atan2 z 0 0 = z.
Proof.
  unfold Py.atan2. destruct (Rlt_dec 0 0); [lra | reflexivity].
Qed.

(** *** The two bearing converters *)

Lemma bearing_from_vec_same (dx dy : R) :
  bearing_from_vec dx dy = bearing_from_vector dx dy.
Proof.
  unfold bearing_from_vec, bearing_from_vector.
  now rewrite normalize_angle_deg_fmod.
Qed.

Lemma bearing_from_vector_range (dx dy : R) :
  0 <= bearing_from_vector dx dy < 360.
Proof.
  unfold bearing_from_vector. rewrite normalize_angle_deg_fmod.
  apply fmod_range. lra.
Qed.

Lemma bearing_from_vector_direction (dx dy : R) :
  dx <> 0 \/ dy <> 0 ->
  dx = Py.hypot dx dy * sin (radians (bearing_from_vector dx dy))
  /\ dy = - (Py.hypot dx dy * cos (radians (bearing_from_vector dx dy))).
Proof.
  intros Hv. unfold bearing_from_vector. rewrite normalize_angle_deg_fmod.
  destruct (fmod_360_trig (Py.degrees (Py.atan2 atan2_zero dx (- dy))))
    as [-> ->].
  rewrite radians_degrees.
  destruct (atan2_polar atan2_zero dx (- dy)) as [Hc Hs].
  { destruct Hv; [right; assumption | left; lra]. }
  rewrite hypot_swap_opp in Hc, Hs. split; lra.
Qed.

Lemma bearing_from_point_to_point_range (px py qx qy : R) :
  0 <= bearing_from_point_to_point px py qx qy < 360.
Proof. unfold bearing_from_point_to_point. apply fmod_range. lra. Qed.


Lemma unit_snd_zero (v : point) : snd v = 0 -> snd (unit v) = 0.
Proof.
  intros H. unfold unit.
  destruct (Req_dec_T (Py.hypot (fst v) (snd v)) 0); simpl; [reflexivity|].
  rewrite H. unfold Rdiv. apply Rmult_0_l.
Qed.

Lemma pair_nonzero (x y : R) : (x, y) <> (0, 0) -> x <> 0 \/ y <> 0.
Proof.
  intros H. destruct (Req_dec x 0) as [Hx|Hx]; [|now left].
  right. intros Hy. apply H. now rewrite Hx, Hy.
Qed.

(** On a tie the two labellings disagree: the code's naming returns
    [n_left], the exchanged naming returns [n_right], and the two are
    opposite unit vectors. *)
Lemma frontage_tie (h0 h1 s0 s1 : point) :
  h0 <> h1 ->
  dot (frontage_n_left h0 h1) (frontage_to_street h0 h1 s0 s1) = 0 ->
  frontage_n_face h0 h1 s0 s1 = frontage_n_left h0 h1
  /\ frontage_n_face_swapped h0 h1 s0 s1 = frontage_n_right h0 h1
  /\ frontage_n_right h0 h1 <> frontage_n_left h0 h1.
Proof.
  intros Hne Hdot.
  assert (Hr : dot (frontage_n_right h0 h1) (frontage_to_street h0 h1 s0 s1) = 0).
  { rewrite frontage_n_right_opposite, dot_scale_neg by assumption. lra. }
  repeat split.
  - unfold frontage_n_face, pick_normal. rewrite Hdot, Hr.
    destruct (Rge_dec 0 0); [reflexivity | lra].
  - unfold frontage_n_face_swapped, pick_normal. rewrite Hdot, Hr.
    destruct (Rge_dec 0 0); [reflexivity | lra].
  - rewrite frontage_n_right_opposite by assumption. intros Heq.
    pose proof (frontage_n_left_length h0 h1 Hne) as Hlen.
    apply (length_one_nonzero _ Hlen).
    destruct (frontage_n_left h0 h1) as [x y]. unfold scale in Heq.
    simpl in Heq. inversion Heq. f_equal; lra.
Qed.

(** ** The claims *)

(** In exact arithmetic [normalize_angle_deg] returns a value in [0, 360)
    and has period 360: a bearing b in [0, 360) shifted by any whole number
    of turns normalizes back to b.  In binary64 arithmetic the upper bound
    is attained, see [normalize_angle_deg_binary64_reaches_360]. *)
Lemma normalize_angle_deg_range_and_period :
  (forall a : R, 0 <= normalize_angle_deg a < 360)
  /\ (forall (b : R) (k : Z),
         0 <= b < 360 -> normalize_angle_deg (b + 360 * IZR k) = b).
Proof.
  split.
  - intros a. rewrite normalize_angle_deg_fmod. apply fmod_range. lra.
  - intros b k Hb. rewrite normalize_angle_deg_fmod.
    apply fmod_shift; lra.
Qed.

Section Binary64Facts.

Import Floats.
Local Open Scope float_scope.

(** C9.  On binary64 floats [normalize_angle_deg] does not stay below 360.
    For the input -1e-20 (the float -0x1.79ca10c924223p-67) the remainder
    [a % 360.0] is -1e-20 + 360.0 rounded, which is 360.0; the test
    [a < 0] fails and 360.0 is returned, outside the interval [0, 360) of
    the function's docstring.  The same holds at the negative float nearest
    to zero, and an input of 360.0 itself still gives 0.0. *)
Theorem normalize_angle_deg_binary64_reaches_360 :
  Binary64.modulo (-0x1.79ca10c924223p-67) 360 = 360
  /\ Binary64.normalize_angle_deg (-0x1.79ca10c924223p-67) = 360
  /\ (Binary64.normalize_angle_deg (-0x1.79ca10c924223p-67) <? 360) = false
  /\ Binary64.normalize_angle_deg (-0x1p-1074) = 360
  /\ Binary64.normalize_angle_deg 360 = 0.
Proof.
  repeat split; vm_compute; reflexivity.
Qed.

End Binary64Facts.

(** C8.  For a bearing in [0, 360), [compass_8] returns the entry of the
    table N, NE, E, SE, S, SW, W, NW at index floor((bearing + 22.5) / 45)
    mod 8, which is the label of the 45-degree sector centred on that
    direction; the two other scripts' copies agree with it.  A bearing on
    a sector edge 22.5 + 45 k gets the clockwise label k + 1; in
    particular 22.5 is NE, 0 is N and 359.9 is N. *)
Theorem compass_8_sector_table :
  (forall b : R,
      0 <= b < 360 ->
      compass_8 b
      = nth (Z.to_nat (Zfloor ((b + 22.5) / 45) mod 8)) dirs EmptyString
      /\ compass_8 b = sector_label b
      /\ compass8 b = compass_8 b
      /\ bearing_to_compass b = compass_8 b)
  /\ (forall k : Z,
         (0 <= k < 8)%Z ->
         compass_8 (22.5 + 45 * IZR k)
         = nth (Z.to_nat ((k + 1) mod 8)) dirs EmptyString)
  /\ compass_8 22.5 = "NE"%string
  /\ compass_8 0 = "N"%string
  /\ compass_8 359.9 = "N"%string.
Proof.
  split; [|split; [|repeat split]].
  - intros b Hb. repeat split.
    + unfold compass_8. now rewrite compass_index_floor.
    + now apply compass_8_sector.
  - intros k _. apply compass_8_floor. rewrite plus_IZR. lra.
  - apply (compass_8_floor _ 1). lra.
  - apply (compass_8_floor _ 0). lra.
  - apply (compass_8_floor _ 8). lra.
Qed.



(** C10.  [perp v] is orthogonal to [v] and has the same Euclidean length;
    hence, for a frontage with distinct end points, the two candidate
    normals of the resolver are unit vectors perpendicular to the
    frontage, and opposite to each other. *)
Theorem perp_orthogonal_same_length :
  (forall v : point,
      dot v (perp v) = 0
      /\ Py.hypot (fst (perp v)) (snd (perp v)) = Py.hypot (fst v) (snd v))
  /\ (forall h0 h1 : point,
         h0 <> h1 ->
         Py.hypot (fst (frontage_n_left h0 h1)) (snd (frontage_n_left h0 h1)) = 1
         /\ Py.hypot (fst (frontage_n_right h0 h1)) (snd (frontage_n_right h0 h1)) = 1
         /\ dot (subtract h1 h0) (frontage_n_left h0 h1) = 0
         /\ dot (subtract h1 h0) (frontage_n_right h0 h1) = 0
         /\ frontage_n_right h0 h1 = scale (frontage_n_left h0 h1) (-1)).
Proof.
  split.
  - intros v. split; [apply dot_perp | apply perp_length].
  - intros h0 h1 Hne.
    pose proof (frontage_n_left_length h0 h1 Hne) as Hl.
    pose proof (frontage_n_right_opposite h0 h1 Hne) as Hr.
    assert (Hd : dot (subtract h1 h0) (frontage_n_left h0 h1) = 0).
    { rewrite frontage_n_left_perp by assumption.
      destruct (unit_nonzero _ (subtract_nonzero h0 h1 Hne)) as [-> Hn].
      unfold dot, perp. simpl. field. exact Hn. }
    repeat split; try assumption.
    + rewrite Hr, scale_neg_length. assumption.
    + rewrite Hr. unfold dot, scale in *. simpl in *. lra.
Qed.

Lemma frontage_n_face_degenerate (h s0 s1 : point) :
  frontage_n_face h h s0 s1 = (0, 0).
Proof.
  destruct (frontage_degenerate h) as (_ & Hl & Hr).
  unfold frontage_n_face, pick_normal. rewrite Hl, Hr.
  now destruct (Rge_dec _ _).
Qed.

Lemma bearing_from_vector_zero :
  bearing_from_vector 0 0 = normalize_angle_deg (Py.degrees atan2_zero).
Proof.
  unfold bearing_from_vector. now rewrite Ropp_0, atan2_origin.
Qed.

Lemma workflow_frontage_four_points (h0 h1 s0 s1 : point) :
  workflow_frontage [h0; h1] [s0; s1]
  = Ok (bearing_from_vector (fst (frontage_n_face h0 h1 s0 s1))
                            (snd (frontage_n_face h0 h1 s0 s1)),
        compass_8 (bearing_from_vector (fst (frontage_n_face h0 h1 s0 s1))
                                       (snd (frontage_n_face h0 h1 s0 s1)))).
Proof. reflexivity. Qed.

(** C1 (as the code has it).  For a frontage with distinct end points,
    the resolver returns one of the two candidate normals, and its dot
    product with [to_street] is at least that of the opposite normal.  On
    a tie it returns n_left = unit(perp(unit(h1 - h0))).  Exchanging the
    names n_left and n_right leaves the selected normal unchanged
    whenever the two dot products differ. *)
Theorem frontage_n_face_toward_street (h0 h1 s0 s1 : point) :
  h0 <> h1 ->
  dot (frontage_n_face h0 h1 s0 s1) (frontage_to_street h0 h1 s0 s1)
  >= dot (scale (frontage_n_face h0 h1 s0 s1) (-1))
         (frontage_to_street h0 h1 s0 s1)
  /\ (frontage_n_face h0 h1 s0 s1 = frontage_n_left h0 h1
      \/ frontage_n_face h0 h1 s0 s1 = frontage_n_right h0 h1)
  /\ (dot (frontage_n_left h0 h1) (frontage_to_street h0 h1 s0 s1)
      = dot (frontage_n_right h0 h1) (frontage_to_street h0 h1 s0 s1) ->
      frontage_n_face h0 h1 s0 s1 = unit (perp (unit (subtract h1 h0))))
  /\ (dot (frontage_n_left h0 h1) (frontage_to_street h0 h1 s0 s1)
      <> dot (frontage_n_right h0 h1) (frontage_to_street h0 h1 s0 s1) ->
      frontage_n_face_swapped h0 h1 s0 s1 = frontage_n_face h0 h1 s0 s1).
Proof.
  intros Hne.
  pose proof (frontage_n_right_opposite h0 h1 Hne) as Hr.
  unfold frontage_n_face, frontage_n_face_swapped, pick_normal.
  set (ts := frontage_to_street h0 h1 s0 s1).
  assert (Hd : dot (frontage_n_right h0 h1) ts = - dot (frontage_n_left h0 h1) ts).
  { rewrite Hr. apply dot_scale_neg. }
  destruct (Rge_dec (dot (frontage_n_left h0 h1) ts)
                    (dot (frontage_n_right h0 h1) ts)) as [Hge|Hlt];
    destruct (Rge_dec (dot (frontage_n_right h0 h1) ts)
                      (dot (frontage_n_left h0 h1) ts)) as [Hge'|Hlt'];
    repeat split;
    try (rewrite dot_scale_neg; lra);
    try (now left); try (now right);
    try (intros; reflexivity); try (intros; lra).
Qed.

(** C2 (as the code has it).  When the two frontage points coincide the
    resolver raises nothing: the frontage direction and both normals are
    the zero vector that [unit] falls back to, the selected normal is the
    zero vector, and the bearing and label returned are those the
    converter gives for the zero vector. *)
Theorem workflow_frontage_zero_length (h0 h1 s0 s1 : point) :
  h0 = h1 ->
  frontage_n_left h0 h1 = (0, 0)
  /\ frontage_n_right h0 h1 = (0, 0)
  /\ frontage_n_face h0 h1 s0 s1 = (0, 0)
  /\ workflow_frontage [h0; h1] [s0; s1]
     = Ok (normalize_angle_deg (Py.degrees atan2_zero),
           compass_8 (normalize_angle_deg (Py.degrees atan2_zero)))
  /\ ~ raises (workflow_frontage [h0; h1] [s0; s1]).
Proof.
  intros <-.
  destruct (frontage_degenerate h0) as (_ & Hl & Hr).
  assert (Hw : workflow_frontage [h0; h0] [s0; s1]
               = Ok (normalize_angle_deg (Py.degrees atan2_zero),
                     compass_8 (normalize_angle_deg (Py.degrees atan2_zero)))).
  { rewrite workflow_frontage_four_points, frontage_n_face_degenerate.
    simpl. now rewrite bearing_from_vector_zero. }
  repeat split; try assumption.
  - apply frontage_n_face_degenerate.
  - rewrite Hw. intros [e He]. discriminate He.
Qed.

(** *** Selection of the nearest candidate *)

Section FirstMinimum.

Context {A : Type}.
Variable key : A -> R.

Lemma min_by_le_best (best : A) (l : list A) :
  key (Py.min_by key best l) <= key best.
Proof.
  revert best. induction l as [|x rest IH]; intros best; simpl.
  - lra.
  - destruct (Rlt_dec (key x) (key best)) as [Hlt|Hge].
    + specialize (IH x). lra.
    + apply IH.
Qed.

Lemma min_by_first_minimum (best : A) (l : list A) :
  exists i, first_minimum key (best :: l) i (Py.min_by key best l).
Proof.
  revert best. induction l as [|x rest IH]; intros best; simpl.
  - exists 0%nat. repeat split.
    + intros y [<-|[]]. lra.
    + intros j y Hj. lia.
  - destruct (Rlt_dec (key x) (key best)) as [Hlt|Hge].
    + destruct (IH x) as (i & Hnth & Hmin & Hbefore).
      exists (S i). repeat split.
      * exact Hnth.
      * intros y [<-|Hy]; [|now apply Hmin].
        pose proof (min_by_le_best x rest). lra.
      * intros [|j] y Hj Hy; simpl in Hy.
        -- inversion Hy; subst y.
           pose proof (min_by_le_best x rest). lra.
        -- apply (Hbefore j); [lia | exact Hy].
    + destruct (IH best) as (i & Hnth & Hmin & Hbefore).
      assert (Hx : key (Py.min_by key best rest) <= key x).
      { pose proof (min_by_le_best best rest). lra. }
      destruct i as [|i].
      * exists 0%nat. repeat split.
        -- exact Hnth.
        -- intros y [<-|[<-|Hy]].
           ++ apply Hmin. now left.
           ++ exact Hx.
           ++ apply Hmin. now right.
        -- intros j y Hj. lia.
      * exists (S (S i)). repeat split.
        -- exact Hnth.
        -- intros y [<-|[<-|Hy]].
           ++ apply Hmin. now left.
           ++ exact Hx.
           ++ apply Hmin. now right.
        -- intros [|[|j]] y Hj Hy; simpl in Hy.
           ++ apply (Hbefore 0%nat); [lia | exact Hy].
           ++ inversion Hy; subst y.
              assert (key (Py.min_by key best rest) < key best).
              { apply (Hbefore 0%nat); [lia | reflexivity]. }
              lra.
           ++ apply (Hbefore (S j)); [lia | exact Hy].
Qed.

End FirstMinimum.

Section RoadSearch.

Variable to_3857_xy : R -> R -> point.
Variable distance : point -> linestring -> R.
Variable project : linestring -> point -> R.
Variable interpolate : linestring -> R -> point.

Lemma nearest_road_from_best (p : point) (roads : list linestring)
      (best : linestring) :
  nearest_road to_3857_xy distance p roads (Some (best, distance p best))
  = Some (Py.min_by (distance p) best (map (project_road to_3857_xy) roads),
          distance p (Py.min_by (distance p) best
                                (map (project_road to_3857_xy) roads))).
Proof.
  revert best. induction roads as [|r rest IH]; intros best; simpl.
  - reflexivity.
  - destruct (Rlt_dec (distance p (project_road to_3857_xy r))
                      (distance p best)); apply IH.
Qed.

Lemma nearest_road_cons (p : point) (r : linestring) (rest : list linestring) :
  nearest_road to_3857_xy distance p (r :: rest) None
  = Some (Py.min_by (distance p) (project_road to_3857_xy r)
                    (map (project_road to_3857_xy) rest),
          distance p (Py.min_by (distance p) (project_road to_3857_xy r)
                                (map (project_road to_3857_xy) rest))).
Proof. simpl. apply nearest_road_from_best. Qed.

Lemma nearest_road_tie (p : point) (r1 r2 : linestring) :
  distance p (project_road to_3857_xy r1) = distance p (project_road to_3857_xy r2) ->
  nearest_road to_3857_xy distance p [r1; r2] None
  = Some (project_road to_3857_xy r1, distance p (project_road to_3857_xy r1)).
Proof.
  intros Heq. simpl.
  destruct (Rlt_dec (distance p (project_road to_3857_xy r2))
                    (distance p (project_road to_3857_xy r1)));
    [lra | reflexivity].
Qed.

Lemma nearest_road_first_minimum (p : point) (roads : list linestring) :
  roads <> [] ->
  exists (i : nat) (best : linestring),
    nearest_road to_3857_xy distance p roads None
    = Some (best, distance p best)
    /\ first_minimum (distance p) (map (project_road to_3857_xy) roads) i best.
Proof.
  destruct roads as [|r rest]; [congruence|]. intros _.
  destruct (min_by_first_minimum (distance p) (project_road to_3857_xy r)
                                 (map (project_road to_3857_xy) rest))
    as (i & Hfirst).
  exists i. eexists. split; [apply nearest_road_cons | exact Hfirst].
Qed.

Lemma nearest_road_bearing_nonempty (lon lat : R) (roads : list linestring) :
  roads <> [] ->
  exists (i : nat) (best : linestring),
    first_minimum (distance (to_3857_xy lon lat))
                  (map (project_road to_3857_xy) roads) i best
    /\ nearest_road to_3857_xy distance (to_3857_xy lon lat) roads None
       = Some (best, distance (to_3857_xy lon lat) best)
    /\ nearest_road_bearing_from_address
         to_3857_xy distance project interpolate lon lat roads
       = let p := to_3857_xy lon lat in
         let q := interpolate best (project best p) in
         let bearing :=
           bearing_from_point_to_point (fst p) (snd p) (fst q) (snd q) in
         Ok {| rep_lat := lat; rep_lon := lon;
               rep_bearing_deg := Some (Py.round2 bearing);
               rep_compass := Some (bearing_to_compass bearing);
               rep_distance_to_road_m := Some (Py.round2 (distance p best));
               rep_note := None |}.
Proof.
  intros Hne.
  destruct (nearest_road_first_minimum (to_3857_xy lon lat) roads Hne)
    as (i & best & Hloop & Hfirst).
  exists i, best. split; [exact Hfirst|]. split; [exact Hloop|].
  unfold nearest_road_bearing_from_address.
  destruct roads as [|r rest]; [congruence|].
  now rewrite Hloop.
Qed.

End RoadSearch.

Lemma find_orientation_nearest (texts : list (string * point))
      (target_label : string) :
  house_points texts target_label <> [] ->
  road_candidates texts <> [] ->
  exists (i : nat) (tp : string * point),
    first_minimum (road_key (Py.mean_points (house_points texts target_label)))
                  (road_candidates texts) i tp
    /\ find_orientation texts target_label
       = let house := Py.mean_points (house_points texts target_label) in
         let b := bearing_from_vec (fst (snd tp) - fst house)
                                   (snd (snd tp) - snd house) in
         Ok (compass8 b, b, fst tp).
Proof.
  intros Hh Hc. unfold find_orientation.
  destruct (house_points texts target_label) as [|h hs] eqn:Eh; [congruence|].
  destruct (road_candidates texts) as [|c rest] eqn:Ec; [congruence|].
  destruct (min_by_first_minimum (road_key (Py.mean_points (h :: hs))) c rest)
    as (i & Hfirst).
  exists i, (Py.min_by (road_key (Py.mean_points (h :: hs))) c rest).
  split; [exact Hfirst | reflexivity].
Qed.

(** C4.  Given a non-empty list of candidates in a fixed order, the
    road search selects the candidate at the first index where the
    distance to the reference point is least: no candidate is nearer and
    every earlier candidate is strictly farther; of two candidates at the
    same distance the first is selected.  The same holds for the nearest
    road label of [find_orientation]. *)
Theorem nearest_candidate_is_first_minimum :
  (forall (to_3857_xy : R -> R -> point)
          (distance : point -> linestring -> R)
          (project : linestring -> point -> R)
          (interpolate : linestring -> R -> point)
          (lon lat : R) (roads : list linestring),
      roads <> [] ->
      exists (i : nat) (best : linestring),
        first_minimum (distance (to_3857_xy lon lat))
                      (map (project_road to_3857_xy) roads) i best
        /\ nearest_road to_3857_xy distance (to_3857_xy lon lat) roads None
           = Some (best, distance (to_3857_xy lon lat) best)
        /\ nearest_road_bearing_from_address
             to_3857_xy distance project interpolate lon lat roads
           = let p := to_3857_xy lon lat in
             let q := interpolate best (project best p) in
             let bearing :=
               bearing_from_point_to_point (fst p) (snd p) (fst q) (snd q) in
             Ok {| rep_lat := lat; rep_lon := lon;
                   rep_bearing_deg := Some (Py.round2 bearing);
                   rep_compass := Some (bearing_to_compass bearing);
                   rep_distance_to_road_m := Some (Py.round2 (distance p best));
                   rep_note := None |})
  /\ (forall (to_3857_xy : R -> R -> point)
            (distance : point -> linestring -> R)
            (p : point) (r1 r2 : linestring),
         distance p (project_road to_3857_xy r1)
         = distance p (project_road to_3857_xy r2) ->
         nearest_road to_3857_xy distance p [r1; r2] None
         = Some (project_road to_3857_xy r1,
                 distance p (project_road to_3857_xy r1)))
  /\ (forall (texts : list (string * point)) (target_label : string),
         house_points texts target_label <> [] ->
         road_candidates texts <> [] ->
         exists (i : nat) (tp : string * point),
           first_minimum
             (road_key (Py.mean_points (house_points texts target_label)))
             (road_candidates texts) i tp
           /\ find_orientation texts target_label
              = let house := Py.mean_points (house_points texts target_label) in
                let b := bearing_from_vec (fst (snd tp) - fst house)
                                          (snd (snd tp) - snd house) in
                Ok (compass8 b, b, fst tp)).
Proof.
  split; [|split].
  - intros. now apply nearest_road_bearing_nonempty.
  - intros. now apply nearest_road_tie.
  - intros. now apply find_orientation_nearest.
Qed.

(** C3 (as the code has it).  With no candidate, neither search produces
    a bearing.  The road search returns normally: its report has
    [bearing_deg = None], the note "No roads found nearby" and no compass
    or distance entry.  [find_orientation] raises [ValueError]: with the
    message "No road label detected" when the house label was found, and
    with "Could not find label ..." when it was not. *)
Theorem empty_candidates_give_no_bearing :
  (forall (to_3857_xy : R -> R -> point)
          (distance : point -> linestring -> R)
          (project : linestring -> point -> R)
          (interpolate : linestring -> R -> point)
          (lon lat : R),
      nearest_road_bearing_from_address
        to_3857_xy distance project interpolate lon lat []
      = Ok {| rep_lat := lat; rep_lon := lon; rep_bearing_deg := None;
              rep_compass := None; rep_distance_to_road_m := None;
              rep_note := Some "No roads found nearby"%string |})
  /\ (forall (texts : list (string * point)) (target_label : string),
         road_candidates texts = [] ->
         (house_points texts target_label <> [] ->
          find_orientation texts target_label
          = Raise (ValueError "No road label detected"))
         /\ (house_points texts target_label = [] ->
             find_orientation texts target_label
             = Raise (ValueError ("Could not find label " ++ target_label)%string))
         /\ raises (find_orientation texts target_label)).
Proof.
  split.
  - reflexivity.
  - intros texts target_label Hc. unfold find_orientation, raises.
    rewrite Hc.
    destruct (house_points texts target_label) as [|h hs];
      repeat split; try congruence; eauto.
Qed.

(** *** Nearest point of a segment and of a polyline *)

Lemma euclid_nonneg (p q : point) : 0 <= euclid p q.
Proof. apply hypot_nonneg. Qed.

Lemma euclid_sqr (p q : point) :
  euclid p q * euclid p q
  = (fst q - fst p) * (fst q - fst p) + (snd q - snd p) * (snd q - snd p).
Proof. apply hypot_sqr. Qed.

Lemma euclid_le (p q q' : point) :
  (fst q - fst p) * (fst q - fst p) + (snd q - snd p) * (snd q - snd p)
  <= (fst q' - fst p) * (fst q' - fst p) + (snd q' - snd p) * (snd q' - snd p) ->
  euclid p q <= euclid p q'.
Proof. intros H. unfold euclid, Py.hypot. now apply sqrt_le_1_alt. Qed.

Lemma euclid_same (a : point) : euclid a a = 0.
Proof. unfold euclid. apply hypot_zero_iff. split; ring. Qed.

Lemma euclid_zero (a b : point) : euclid a b = 0 -> a = b.
Proof.
  intros H. apply hypot_zero_iff in H. destruct H as [Hx Hy].
  destruct a, b. simpl in *. f_equal; lra.
Qed.

Lemma along_0 (a b : point) : along a b 0 = a.
Proof. destruct a as [x y]. unfold along. simpl. f_equal; ring. Qed.

Lemma along_1 (a b : point) : along a b 1 = b.
Proof. destruct a, b. unfold along. simpl. f_equal; ring. Qed.

Lemma along_same (a : point) (t : R) : along a a t = a.
Proof. destruct a as [x y]. unfold along. simpl. f_equal; ring. Qed.

Lemma clamp01_range (t : R) : 0 <= clamp01 t <= 1.
Proof.
  unfold clamp01, Rmax, Rmin.
  destruct (Rle_dec 1 t); destruct (Rle_dec 0 _); lra.
Qed.

Lemma clamp01_cases (t : R) :
  (t < 0 /\ clamp01 t = 0) \/ (0 <= t <= 1 /\ clamp01 t = t)
  \/ (1 < t /\ clamp01 t = 1).
Proof.
  unfold clamp01, Rmax, Rmin.
  destruct (Rle_dec 1 t); destruct (Rle_dec 0 _); lra.
Qed.

Lemma seg_param_range (p a b : point) : 0 <= seg_param p a b <= 1.
Proof.
  unfold seg_param. destruct (Req_dec_T _ 0); [lra | apply clamp01_range].
Qed.

Lemma sum_sqr_zero (x y : R) : x * x + y * y = 0 -> x = 0 /\ y = 0.
Proof.
  intros H.
  pose proof (Rle_0_sqr x) as Hx. pose proof (Rle_0_sqr y) as Hy.
  unfold Rsqr in *.
  assert (Hx0 : x * x = 0) by lra. assert (Hy0 : y * y = 0) by lra.
  apply Rmult_integral in Hx0, Hy0. lra.
Qed.

Lemma dot_self_zero (a b : point) :
  dot (subtract b a) (subtract b a) = 0 -> a = b.
Proof.
  destruct a as [ax ay], b as [bx by_]. unfold dot, subtract. simpl.
  intros H. apply sum_sqr_zero in H. destruct H. f_equal; lra.
Qed.

Lemma dot_self_pos (a b : point) :
  a <> b -> 0 < dot (subtract b a) (subtract b a).
Proof.
  intros Hne.
  assert (0 <= dot (subtract b a) (subtract b a)).
  { unfold dot, subtract. simpl. clear. generalize (fst b - fst a) (snd b - snd a). intros x y. nra. }
  destruct (Req_dec (dot (subtract b a) (subtract b a)) 0) as [Hz|Hnz].
  - exfalso. apply Hne. now apply dot_self_zero.
  - lra.
Qed.

Lemma seg_param_proper (p a b : point) :
  a <> b -> seg_param p a b = clamp01 (foot_param p a b).
Proof.
  intros Hne. unfold seg_param.
  destruct (Req_dec_T _ 0) as [Hz|_]; [|reflexivity].
  pose proof (dot_self_pos a b Hne). lra.
Qed.

(** The squared distance from [p] to the point at fraction [t] is a
    quadratic in [t] with its vertex at the foot of the perpendicular. *)
Lemma seg_quadratic (p a b : point) (s t : R) :
  let d := subtract b a in
  let w := subtract p a in
  ((fst (along a b t) - fst p) * (fst (along a b t) - fst p)
   + (snd (along a b t) - snd p) * (snd (along a b t) - snd p))
  - ((fst (along a b s) - fst p) * (fst (along a b s) - fst p)
     + (snd (along a b s) - snd p) * (snd (along a b s) - snd p))
  = (t - s) * ((t + s) * dot d d - 2 * dot w d).
Proof.
  destruct p as [px py], a as [ax ay], b as [bx by_].
  unfold along, dot, subtract. simpl. ring.
Qed.

Lemma seg_nearest_optimal (p a b : point) (t : R) :
  0 <= t <= 1 -> seg_distance p a b <= euclid p (along a b t).
Proof.
  intros Ht. unfold seg_distance, seg_nearest.
  destruct (Req_dec_T (dot (subtract b a) (subtract b a)) 0) as [Hz|Hnz].
  - apply dot_self_zero in Hz. subst b. rewrite !along_same. lra.
  - assert (Hne : a <> b).
    { intros ->. apply Hnz. unfold dot, subtract. simpl. ring. }
    pose proof (dot_self_pos a b Hne) as Hd.
    rewrite seg_param_proper by assumption.
    apply euclid_le.
    match goal with
    | |- ?X <= ?Y => cut (0 <= Y - X); [lra|]
    end.
    rewrite (seg_quadratic p a b (clamp01 (foot_param p a b)) t). simpl.
    assert (Hw : dot (subtract p a) (subtract b a)
                 = foot_param p a b * dot (subtract b a) (subtract b a)).
    { unfold foot_param. field. lra. }
    rewrite Hw.
    set (D := dot (subtract b a) (subtract b a)) in *.
    set (u := foot_param p a b) in *.
    destruct (clamp01_cases u) as [[Hu ->]|[[Hu ->]|[Hu ->]]].
    + replace ((t - 0) * ((t + 0) * D - 2 * (u * D)))
        with (D * (t * (t - 2 * u))) by ring.
      apply Rmult_le_pos; [lra|]. apply Rmult_le_pos; lra.
    + replace ((t - u) * ((t + u) * D - 2 * (u * D)))
        with (D * ((t - u) * (t - u))) by ring.
      apply Rmult_le_pos; [lra|]. exact (Rle_0_sqr (t - u)).
    + replace ((t - 1) * ((t + 1) * D - 2 * (u * D)))
        with (D * ((1 - t) * (2 * u - t - 1))) by ring.
      apply Rmult_le_pos; [lra|]. apply Rmult_le_pos; lra.
Qed.

Lemma seg_distance_le_start (p a b : point) : seg_distance p a b <= euclid p a.
Proof.
  rewrite <- (along_0 a b) at 2. apply seg_nearest_optimal. lra.
Qed.

Lemma seg_distance_le_end (p a b : point) : seg_distance p a b <= euclid p b.
Proof.
  rewrite <- (along_1 a b) at 2. apply seg_nearest_optimal. lra.
Qed.

Lemma seg_nearest_foot (p a b : point) :
  a <> b ->
  0 <= foot_param p a b <= 1 ->
  seg_nearest p a b = along a b (foot_param p a b)
  /\ dot (subtract p (seg_nearest p a b)) (subtract b a) = 0.
Proof.
  intros Hne Hu. unfold seg_nearest.
  rewrite seg_param_proper by assumption.
  destruct (clamp01_cases (foot_param p a b)) as [[H _]|[[_ ->]|[H _]]];
    try lra.
  split; [reflexivity|].
  pose proof (dot_self_pos a b Hne) as Hd.
  unfold foot_param.
  destruct p as [px py], a as [ax ay], b as [bx by_].
  unfold along, dot, subtract in *. simpl in *. field. lra.
Qed.

Lemma seg_nearest_before (p a b : point) :
  a <> b -> foot_param p a b < 0 ->
  seg_nearest p a b = a /\ euclid p a <= euclid p b.
Proof.
  intros Hne Hu.
  assert (Hq : seg_nearest p a b = a).
  { unfold seg_nearest. rewrite seg_param_proper by assumption.
    destruct (clamp01_cases (foot_param p a b)) as [[_ ->]|[[H _]|[H _]]];
      try lra.
    apply along_0. }
  split; [exact Hq|].
  pose proof (seg_distance_le_end p a b) as H.
  unfold seg_distance in H. now rewrite Hq in H.
Qed.

Lemma seg_nearest_after (p a b : point) :
  a <> b -> 1 < foot_param p a b ->
  seg_nearest p a b = b /\ euclid p b <= euclid p a.
Proof.
  intros Hne Hu.
  assert (Hq : seg_nearest p a b = b).
  { unfold seg_nearest. rewrite seg_param_proper by assumption.
    destruct (clamp01_cases (foot_param p a b)) as [[H _]|[[H _]|[_ ->]]];
      try lra.
    apply along_1. }
  split; [exact Hq|].
  pose proof (seg_distance_le_start p a b) as H.
  unfold seg_distance in H. now rewrite Hq in H.
Qed.

Lemma shapely_project_nonneg (p : point) (l : linestring) :
  0 <= shapely_project l p.
Proof.
  induction l as [|a tl IH]; simpl; [lra|].
  destruct tl as [|b r]; [lra|].
  destruct (Rle_dec _ _).
  - apply Rmult_le_pos; [apply seg_param_range | apply euclid_nonneg].
  - pose proof (euclid_nonneg a b). lra.
Qed.

Lemma shapely_interpolate_start (a : point) (tl : linestring) :
  shapely_interpolate (a :: tl) 0 = a.
Proof.
  simpl. destruct tl as [|b r]; [reflexivity|].
  pose proof (euclid_nonneg a b).
  destruct (Rle_dec 0 (euclid a b)); [|lra].
  unfold Rdiv. rewrite Rmult_0_l. apply along_0.
Qed.

Lemma shapely_interpolate_within (a b : point) (r : linestring) (t : R) :
  0 <= t <= 1 ->
  shapely_interpolate (a :: b :: r) (t * euclid a b) = along a b t.
Proof.
  intros Ht. simpl.
  pose proof (euclid_nonneg a b) as HL.
  destruct (Req_dec (euclid a b) 0) as [Hz|Hnz].
  - apply euclid_zero in Hz. subst b.
    destruct (Rle_dec _ _).
    + now rewrite !along_same.
    + rewrite euclid_same in *. lra.
  - destruct (Rle_dec (t * euclid a b) (euclid a b)) as [_|Hgt].
    + f_equal. field. exact Hnz.
    + exfalso. apply Hgt.
      rewrite <- (Rmult_1_l (euclid a b)) at 2.
      apply Rmult_le_compat_r; lra.
Qed.

Lemma shapely_interpolate_beyond (a b : point) (r : linestring) (d : R) :
  0 <= d ->
  shapely_interpolate (a :: b :: r) (euclid a b + d)
  = shapely_interpolate (b :: r) d.
Proof.
  intros Hd.
  change (shapely_interpolate (a :: b :: r) (euclid a b + d))
    with (if Rle_dec (euclid a b + d) (euclid a b)
          then along a b ((euclid a b + d) / euclid a b)
          else shapely_interpolate (b :: r) (euclid a b + d - euclid a b)).
  destruct (Rle_dec (euclid a b + d) (euclid a b)) as [Hle|Hgt].
  - assert (d = 0) by lra. subst d.
    rewrite shapely_interpolate_start, Rplus_0_r.
    destruct (Req_dec (euclid a b) 0) as [Hz|Hnz].
    + apply euclid_zero in Hz. subst b. apply along_same.
    + replace (euclid a b / euclid a b) with 1 by (field; exact Hnz).
      apply along_1.
  - f_equal. ring.
Qed.

Lemma shapely_nearest_distance (p a : point) (tl : linestring) :
  euclid p (shapely_interpolate (a :: tl) (shapely_project (a :: tl) p))
  = shapely_distance p (a :: tl).
Proof.
  revert a. induction tl as [|b r IH]; intros a.
  - reflexivity.
  - change (shapely_project (a :: b :: r) p)
      with (if Rle_dec (seg_distance p a b) (shapely_distance p (b :: r))
            then seg_param p a b * euclid a b
            else euclid a b + shapely_project (b :: r) p).
    change (shapely_distance p (a :: b :: r))
      with (Rmin (seg_distance p a b) (shapely_distance p (b :: r))).
    destruct (Rle_dec (seg_distance p a b) (shapely_distance p (b :: r)))
      as [Hle|Hgt].
    + rewrite shapely_interpolate_within by apply seg_param_range.
      rewrite Rmin_left by assumption. reflexivity.
    + rewrite shapely_interpolate_beyond by apply shapely_project_nonneg.
      rewrite IH, Rmin_right by lra. reflexivity.
Qed.

Lemma shapely_nearest_on_segment (p a b : point) (r : linestring) :
  exists a' b' : point,
    In (a', b') (segments (a :: b :: r))
    /\ shapely_interpolate (a :: b :: r) (shapely_project (a :: b :: r) p)
       = seg_nearest p a' b'.
Proof.
  revert a b. induction r as [|c r' IH]; intros a b.
  - exists a, b. split; [now left|].
    change (shapely_project [a; b] p)
      with (if Rle_dec (seg_distance p a b) (euclid p b)
            then seg_param p a b * euclid a b
            else euclid a b + 0).
    pose proof (seg_distance_le_end p a b).
    destruct (Rle_dec (seg_distance p a b) (euclid p b)); [|lra].
    apply shapely_interpolate_within, seg_param_range.
  - change (shapely_project (a :: b :: c :: r') p)
      with (if Rle_dec (seg_distance p a b) (shapely_distance p (b :: c :: r'))
            then seg_param p a b * euclid a b
            else euclid a b + shapely_project (b :: c :: r') p).
    destruct (Rle_dec (seg_distance p a b) (shapely_distance p (b :: c :: r'))).
    + exists a, b. split; [now left|].
      apply shapely_interpolate_within, seg_param_range.
    + destruct (IH b c) as (a' & b' & Hin & Hq).
      exists a', b'. split; [now right|].
      rewrite shapely_interpolate_beyond by apply shapely_project_nonneg.
      exact Hq.
Qed.

Lemma shapely_distance_le_segment (p : point) (l : linestring) (a b : point) :
  In (a, b) (segments l) -> shapely_distance p l <= seg_distance p a b.
Proof.
  induction l as [|a0 tl IH]; [intros []|].
  destruct tl as [|b0 r]; [intros []|].
  change (shapely_distance p (a0 :: b0 :: r))
    with (Rmin (seg_distance p a0 b0) (shapely_distance p (b0 :: r))).
  intros [Heq|Hin].
  - inversion Heq; subst. apply Rmin_l.
  - eapply Rle_trans; [apply Rmin_r | now apply IH].
Qed.

Lemma shapely_nearest_two_points (p a b : point) :
  shapely_interpolate [a; b] (shapely_project [a; b] p) = seg_nearest p a b.
Proof.
  destruct (shapely_nearest_on_segment p a b []) as (a' & b' & Hin & Hq).
  destruct Hin as [Heq|[]]. inversion Heq; subst. exact Hq.
Qed.

Lemma seg_nearest_vertical (x h : R) :
  0 < h -> seg_nearest (0, 0) (x, h) (x, - h) = (x, 0).
Proof.
  intros Hh.
  assert (Hne : (x, h) <> (x, - h)).
  { intros Heq. inversion Heq. lra. }
  assert (Hu : foot_param (0, 0) (x, h) (x, - h) = 1 / 2).
  { unfold foot_param, dot, subtract. simpl.
    replace ((0 - x) * (x - x) + (0 - h) * (- h - h)) with (2 * (h * h))
      by ring.
    replace ((x - x) * (x - x) + (- h - h) * (- h - h)) with (4 * (h * h))
      by ring.
    field. lra. }
  destruct (seg_nearest_foot (0, 0) (x, h) (x, - h) Hne) as [-> _].
  - rewrite Hu. lra.
  - rewrite Hu. unfold along. simpl. f_equal; field.
Qed.

Lemma euclid_origin_axis (x : R) : 0 <= x -> euclid (0, 0) (x, 0) = x.
Proof.
  intros Hx. unfold euclid, Py.hypot. simpl.
  replace ((x - 0) * (x - 0) + (0 - 0) * (0 - 0)) with (x * x) by ring.
  now apply sqrt_square.
Qed.

Lemma round_half_even_below (x : R) (z : Z) :
  IZR z <= x < IZR z + 1 / 2 -> Py.round_half_even x = z.
Proof.
  intros Hx. unfold Py.round_half_even.
  assert (Hf : Zfloor x = z) by (apply Zfloor_eq; lra).
  rewrite Hf. destruct (Rlt_dec (x - IZR z) (1 / 2)); [reflexivity | lra].
Qed.

Lemma round2_exact (z : Z) : Py.round2 (IZR z / 100) = IZR z / 100.
Proof.
  unfold Py.round2. f_equal. f_equal.
  apply round_half_even_below.
  replace (IZR z / 100 * 100) with (IZR z) by field. lra.
Qed.

Lemma round2_below (x : R) (z : Z) :
  IZR z / 100 <= x < IZR z / 100 + 1 / 200 -> Py.round2 x = IZR z / 100.
Proof.
  intros [Hlo Hhi]. unfold Py.round2. f_equal. f_equal.
  apply round_half_even_below. lra.
Qed.

Lemma bearing_due_east (px py d : R) :
  0 < d -> bearing_from_point_to_point px py (px + d) py = 90.
Proof.
  intros Hd. unfold bearing_from_point_to_point.
  replace (px + d - px) with d by ring.
  replace (py - py) with 0 by ring.
  unfold Py.atan2. destruct (Rlt_dec 0 d); [|lra].
  replace (0 / d) with 0 by (field; lra).
  rewrite atan_0, degrees_0.
  replace (90 - 0) with 90 by ring. apply fmod_small; lra.
Qed.

Lemma shapely_report (to_3857_xy : R -> R -> point) (lon lat : R)
      (roads : list linestring) :
  roads <> [] ->
  (forall r, In r roads -> (2 <= List.length r)%nat) ->
  exists (i : nat) (best : linestring),
    first_minimum (shapely_distance (to_3857_xy lon lat))
                  (map (project_road to_3857_xy) roads) i best
    /\ shapely_distance (to_3857_xy lon lat) best
       = euclid (to_3857_xy lon lat)
                (shapely_interpolate best
                   (shapely_project best (to_3857_xy lon lat)))
    /\ nearest_road_bearing to_3857_xy lon lat roads
       = let p := to_3857_xy lon lat in
         let q := shapely_interpolate best (shapely_project best p) in
         let bearing :=
           bearing_from_point_to_point (fst p) (snd p) (fst q) (snd q) in
         Ok {| rep_lat := lat; rep_lon := lon;
               rep_bearing_deg := Some (Py.round2 bearing);
               rep_compass := Some (bearing_to_compass bearing);
               rep_distance_to_road_m := Some (Py.round2 (euclid p q));
               rep_note := None |}.
Proof.
  intros Hne Hlen.
  destruct (nearest_road_bearing_nonempty
              to_3857_xy shapely_distance shapely_project shapely_interpolate
              lon lat roads Hne) as (i & best & Hfirst & _ & Hrep).
  assert (Hd : shapely_distance (to_3857_xy lon lat) best
               = euclid (to_3857_xy lon lat)
                        (shapely_interpolate best
                           (shapely_project best (to_3857_xy lon lat)))).
  { destruct Hfirst as (Hnth & _).
    apply nth_error_In, in_map_iff in Hnth.
    destruct Hnth as (r & <- & Hr).
    specialize (Hlen r Hr). unfold project_road.
    destruct r as [|c r]; simpl in Hlen; [lia|].
    simpl map. symmetry. apply shapely_nearest_distance. }
  exists i, best. split; [exact Hfirst|]. split; [exact Hd|].
  unfold nearest_road_bearing. rewrite Hrep. simpl. now rewrite Hd.
Qed.

Lemma nearest_road_bearing_single (to_3857_xy : R -> R -> point)
      (lon lat : R) (road_ll : linestring) :
  nearest_road_bearing to_3857_xy lon lat [road_ll]
  = let p := to_3857_xy lon lat in
    let best := project_road to_3857_xy road_ll in
    let q := shapely_interpolate best (shapely_project best p) in
    let bearing :=
      bearing_from_point_to_point (fst p) (snd p) (fst q) (snd q) in
    Ok {| rep_lat := lat; rep_lon := lon;
          rep_bearing_deg := Some (Py.round2 bearing);
          rep_compass := Some (bearing_to_compass bearing);
          rep_distance_to_road_m := Some (Py.round2 (shapely_distance p best));
          rep_note := None |}.
Proof. reflexivity. Qed.

Lemma vertical_road_report (x : R) :
  0 < x ->
  nearest_road_bearing planar_xy 0 0 [[(x, 5); (x, - 5)]]
  = Ok {| rep_lat := 0; rep_lon := 0;
          rep_bearing_deg := Some 90;
          rep_compass := Some "E"%string;
          rep_distance_to_road_m := Some (Py.round2 x);
          rep_note := None |}
  /\ shapely_interpolate [(x, 5); (x, - 5)]
                         (shapely_project [(x, 5); (x, - 5)] (0, 0)) = (x, 0)
  /\ shapely_distance (0, 0) [(x, 5); (x, - 5)] = x.
Proof.
  intros Hx.
  assert (Hq : shapely_interpolate [(x, 5); (x, - 5)]
                 (shapely_project [(x, 5); (x, - 5)] (0, 0)) = (x, 0)).
  { rewrite shapely_nearest_two_points. apply seg_nearest_vertical. lra. }
  assert (Hd : shapely_distance (0, 0) [(x, 5); (x, - 5)] = x).
  { etransitivity;
      [symmetry; exact (shapely_nearest_distance (0, 0) (x, 5) [(x, - 5)])|].
    etransitivity; [exact (f_equal (euclid (0, 0)) Hq)|].
    apply euclid_origin_axis. lra. }
  split; [|split; assumption].
  rewrite nearest_road_bearing_single.
  unfold project_road, planar_xy. simpl map. cbv zeta.
  match goal with
  | |- context [shapely_interpolate ?l ?d] =>
      replace (shapely_interpolate l d) with ((x, 0) : point)
        by (symmetry; exact Hq)
  end.
  match goal with
  | |- context [shapely_distance ?p ?l] =>
      replace (shapely_distance p l) with x by (symmetry; exact Hd)
  end.
  simpl fst. simpl snd.
  assert (Hb : bearing_from_point_to_point 0 0 x 0 = 90).
  { pose proof (bearing_due_east 0 0 x Hx) as H.
    now replace (0 + x) with x in H by ring. }
  assert (Hr : Py.round2 90 = 90).
  { replace 90 with (IZR 9000 / 100) by lra. apply round2_exact. }
  assert (Hc : bearing_to_compass 90 = "E"%string).
  { apply (compass_8_floor 90 2). lra. }
  now rewrite Hb, Hr, Hc.
Qed.

(** C5 (as the code has it).  On a segment with distinct end points the
    nearest point to p is the orthogonal projection of p when the
    perpendicular foot falls within the segment and the nearer end point
    otherwise, and no point of the segment is nearer.  On a polyline of at
    least two points, [interpolate(project(p))] is such a nearest point of
    one of its segments, the distance the search computes equals the
    Euclidean distance from p to it, and no point of the polyline is
    nearer.  The report of the road search carries that distance rounded
    to two decimals.  For p = (0,0) and the segment from (5,5) to (5,-5)
    the nearest point is (5,0), the distance is 5 and the report says
    5, bearing 90, E. *)
Theorem nearest_point_on_road :
  (forall p a b : point,
      a <> b ->
      (0 <= foot_param p a b <= 1 ->
       seg_nearest p a b = along a b (foot_param p a b)
       /\ dot (subtract p (seg_nearest p a b)) (subtract b a) = 0)
      /\ (foot_param p a b < 0 ->
          seg_nearest p a b = a /\ euclid p a <= euclid p b)
      /\ (1 < foot_param p a b ->
          seg_nearest p a b = b /\ euclid p b <= euclid p a)
      /\ (forall t : R,
             0 <= t <= 1 ->
             euclid p (seg_nearest p a b) <= euclid p (along a b t)))
  /\ (forall (p : point) (l : linestring),
         (2 <= List.length l)%nat ->
         (exists a b : point,
             In (a, b) (segments l)
             /\ shapely_interpolate l (shapely_project l p) = seg_nearest p a b)
         /\ shapely_distance p l
            = euclid p (shapely_interpolate l (shapely_project l p))
         /\ (forall (a b : point) (t : R),
                In (a, b) (segments l) ->
                0 <= t <= 1 ->
                shapely_distance p l <= euclid p (along a b t)))
  /\ (forall (to_3857_xy : R -> R -> point) (lon lat : R)
             (roads : list linestring),
         roads <> [] ->
         (forall r, In r roads -> (2 <= List.length r)%nat) ->
         exists (i : nat) (best : linestring),
           first_minimum (shapely_distance (to_3857_xy lon lat))
                         (map (project_road to_3857_xy) roads) i best
           /\ shapely_distance (to_3857_xy lon lat) best
              = euclid (to_3857_xy lon lat)
                       (shapely_interpolate best
                          (shapely_project best (to_3857_xy lon lat)))
           /\ nearest_road_bearing to_3857_xy lon lat roads
              = let p := to_3857_xy lon lat in
                let q := shapely_interpolate best (shapely_project best p) in
                let bearing :=
                  bearing_from_point_to_point (fst p) (snd p) (fst q) (snd q) in
                Ok {| rep_lat := lat; rep_lon := lon;
                      rep_bearing_deg := Some (Py.round2 bearing);
                      rep_compass := Some (bearing_to_compass bearing);
                      rep_distance_to_road_m := Some (Py.round2 (euclid p q));
                      rep_note := None |})
  /\ shapely_interpolate [(5, 5); (5, - 5)]
                         (shapely_project [(5, 5); (5, - 5)] (0, 0)) = (5, 0)
  /\ shapely_distance (0, 0) [(5, 5); (5, - 5)] = 5
  /\ nearest_road_bearing planar_xy 0 0 [[(5, 5); (5, - 5)]]
     = Ok {| rep_lat := 0; rep_lon := 0;
             rep_bearing_deg := Some 90;
             rep_compass := Some "E"%string;
             rep_distance_to_road_m := Some 5;
             rep_note := None |}.
Proof.
  split; [|split; [|split]].
  - intros p a b Hne. repeat split.
    + now apply seg_nearest_foot.
    + now apply seg_nearest_foot.
    + now apply seg_nearest_before.
    + now apply seg_nearest_before.
    + now apply seg_nearest_after.
    + now apply seg_nearest_after.
    + intros t Ht. now apply seg_nearest_optimal.
  - intros p l Hlen.
    destruct l as [|a [|b r]]; simpl in Hlen; try lia.
    split; [apply shapely_nearest_on_segment|].
    split; [symmetry; apply shapely_nearest_distance|].
    intros a' b' t Hin Ht.
    apply Rle_trans with (seg_distance p a' b').
    + apply shapely_distance_le_segment. exact Hin.
    + apply seg_nearest_optimal. exact Ht.
  - intros. now apply shapely_report.
  - destruct (vertical_road_report 5) as (Hrep & Hq & Hd); [lra|].
    split; [exact Hq|]. split; [exact Hd|].
    rewrite Hrep. do 4 f_equal.
    replace 5 with (IZR 500 / 100) by lra. now rewrite round2_exact.
Qed.

(** ** Further properties of the three scripts *)

(** *** Angles, again *)

Lemma fmod_add_turns (a : R) (k : Z) :
  Py.fmod (a + 360 * IZR k) 360 = Py.fmod a 360.
Proof.
  destruct (fmod_range a 360) as [Hlo Hhi]; [lra|].
  assert (Ha : a = Py.fmod a 360 + 360 * IZR (Zfloor (a / 360))).
  { unfold Py.fmod. ring. }
  rewrite Ha at 1.
  replace (Py.fmod a 360 + 360 * IZR (Zfloor (a / 360)) + 360 * IZR k)
    with (Py.fmod a 360 + 360 * IZR (Zfloor (a / 360) + k))
    by (rewrite plus_IZR; ring).
  apply fmod_shift; lra.
Qed.

Lemma fmod_fmod_add (a b : R) :
  Py.fmod (Py.fmod a 360 + b) 360 = Py.fmod (a + b) 360.
Proof.
  replace (Py.fmod a 360 + b)
    with (a + b + 360 * IZR (- Zfloor (a / 360)))
    by (unfold Py.fmod; rewrite opp_IZR; ring).
  apply fmod_add_turns.
Qed.



Lemma atan2_scale (z k y x : R) :
  0 < k -> Py.atan2 z (k * y) (k * x) = Py.atan2 z y x.
Proof.
  intros Hk. unfold Py.atan2.
  assert (Hq : x <> 0 -> k * y / (k * x) = y / x).
  { intros Hx. field. split; lra. }
  destruct (Rlt_dec 0 x) as [Hx|Hx].
  - destruct (Rlt_dec 0 (k * x)) as [_|Hn]; [|exfalso; apply Hn; nra].
    rewrite Hq by lra. reflexivity.
  - destruct (Rlt_dec 0 (k * x)) as [Hp|_]; [exfalso; nra|].
    destruct (Rlt_dec x 0) as [Hx'|Hx'].
    + destruct (Rlt_dec (k * x) 0) as [_|Hn]; [|exfalso; apply Hn; nra].
      rewrite Hq by lra.
      destruct (Rle_dec 0 y); destruct (Rle_dec 0 (k * y));
        try reflexivity; exfalso; nra.
    + destruct (Rlt_dec (k * x) 0) as [Hp|_]; [exfalso; nra|].
      destruct (Rlt_dec 0 y); destruct (Rlt_dec 0 (k * y));
        try reflexivity; try (exfalso; nra).
      destruct (Rlt_dec y 0); destruct (Rlt_dec (k * y) 0);
        try reflexivity; exfalso; nra.
Qed.

(** *** The converters under scaling, reversal and a flip of the y axis *)

Lemma bearing_from_vector_scale (k dx dy : R) :
  0 < k -> bearing_from_vector (k * dx) (k * dy) = bearing_from_vector dx dy.
Proof.
  intros Hk. unfold bearing_from_vector.
  replace (- (k * dy)) with (k * - dy) by ring.
  now rewrite atan2_scale.
Qed.

Lemma bearing_from_point_to_point_similar (k tx ty px py qx qy : R) :
  0 < k ->
  bearing_from_point_to_point (k * px + tx) (k * py + ty)
                              (k * qx + tx) (k * qy + ty)
  = bearing_from_point_to_point px py qx qy.
Proof.
  intros Hk. unfold bearing_from_point_to_point.
  replace (k * qx + tx - (k * px + tx)) with (k * (qx - px)) by ring.
  replace (k * qy + ty - (k * py + ty)) with (k * (qy - py)) by ring.
  now rewrite atan2_scale.
Qed.

Lemma workflow_vector_two_points (p0 p1 : point) :
  workflow_vector [p0; p1]
  = Ok (bearing_from_vector (fst p1 - fst p0) (snd p1 - snd p0),
        compass_8 (bearing_from_vector (fst p1 - fst p0) (snd p1 - snd p0))).
Proof. reflexivity. Qed.





(** X1.  Neither converter depends on the scale of its input: for k > 0
    the vector (k dx, k dy) has the bearing of (dx, dy), zero vector
    included.  Hence zooming and shifting the picture (p to k p + t) leaves
    the point-to-point bearing and the whole answer of [workflow_vector]
    unchanged. *)
Theorem bearing_similarity_invariant (k tx ty : R) :
  0 < k ->
  (forall dx dy : R,
      bearing_from_vector (k * dx) (k * dy) = bearing_from_vector dx dy
      /\ bearing_from_vec (k * dx) (k * dy) = bearing_from_vec dx dy)
  /\ (forall px py qx qy : R,
         bearing_from_point_to_point (k * px + tx) (k * py + ty)
                                     (k * qx + tx) (k * qy + ty)
         = bearing_from_point_to_point px py qx qy)
  /\ (forall p0 p1 : point,
         workflow_vector [(k * fst p0 + tx, k * snd p0 + ty);
                          (k * fst p1 + tx, k * snd p1 + ty)]
         = workflow_vector [p0; p1]).
Proof.
  intros Hk. split; [|split].
  - intros dx dy. split.
    + now apply bearing_from_vector_scale.
    + rewrite !bearing_from_vec_same. now apply bearing_from_vector_scale.
  - intros. now apply bearing_from_point_to_point_similar.
  - intros p0 p1. rewrite !workflow_vector_two_points. simpl fst. simpl snd.
    replace (k * fst p1 + tx - (k * fst p0 + tx)) with (k * (fst p1 - fst p0))
      by ring.
    replace (k * snd p1 + ty - (k * snd p0 + ty)) with (k * (snd p1 - snd p0))
      by ring.
    now rewrite bearing_from_vector_scale.
Qed.



(** X4.  For two distinct clicks, [workflow_vector] returns a bearing b
    that points from the first click to the second (dx = r sin b,
    dy = - r cos b, with r the distance between the clicks), and the label
    of the 45-degree sector that bearing lies in.  The bearing lies in
    [0, 360]; the upper end is included because the float remainder can
    round to 360.0, which carries the label N. *)
Theorem workflow_vector_points_to_second_click (p0 p1 : point) :
  p0 <> p1 ->
  exists b : R,
    workflow_vector [p0; p1] = Ok (b, sector_label b)
    /\ 0 <= b <= 360
    /\ fst p1 - fst p0
       = Py.hypot (fst p1 - fst p0) (snd p1 - snd p0) * sin (radians b)
    /\ snd p1 - snd p0
       = - (Py.hypot (fst p1 - fst p0) (snd p1 - snd p0) * cos (radians b)).
Proof.
  intros Hne.
  assert (Hv : fst p1 - fst p0 <> 0 \/ snd p1 - snd p0 <> 0).
  { apply pair_nonzero. apply (subtract_nonzero p0 p1 Hne). }
  exists (bearing_from_vector (fst p1 - fst p0) (snd p1 - snd p0)).
  pose proof (bearing_from_vector_range (fst p1 - fst p0) (snd p1 - snd p0))
    as Hrange.
  split; [|split; [lra | now apply bearing_from_vector_direction]].
  rewrite workflow_vector_two_points. now rewrite compass_8_sector.
Qed.

(** X5.  The click count is checked before anything is computed:
    [workflow_vector] raises RuntimeError exactly when it did not get 2
    points, and [workflow_frontage] raises for the frontage clicks first,
    then for the street clicks; with 2 and 2 points it raises nothing. *)
Theorem workflows_check_click_count :
  (forall clicked : list point,
      List.length clicked <> 2%nat ->
      workflow_vector clicked
      = Raise (RuntimeError
                 ("Expected 2 points, got "
                    ++ Py.str_nat (List.length clicked) ++ ".")%string))
  /\ (forall house street : list point,
         List.length house <> 2%nat ->
         workflow_frontage house street
         = Raise (RuntimeError
                    ("Expected 2 points, got "
                       ++ Py.str_nat (List.length house) ++ ".")%string))
  /\ (forall house street : list point,
         List.length house = 2%nat ->
         List.length street <> 2%nat ->
         workflow_frontage house street
         = Raise (RuntimeError
                    ("Expected 2 points, got "
                       ++ Py.str_nat (List.length street) ++ ".")%string))
  /\ (forall clicked : list point,
         List.length clicked = 2%nat -> ~ raises (workflow_vector clicked))
  /\ (forall house street : list point,
         List.length house = 2%nat ->
         List.length street = 2%nat ->
         ~ raises (workflow_frontage house street)).
Proof.
  assert (Hbad : forall l : list point,
             List.length l <> 2%nat ->
             get_points l 2
             = Raise (RuntimeError
                        ("Expected 2 points, got "
                           ++ Py.str_nat (List.length l) ++ ".")%string)).
  { intros l Hl. unfold get_points.
    destruct (Nat.eqb_spec (List.length l) 2); [contradiction | reflexivity]. }
  assert (Hgood : forall l : list point,
             List.length l = 2%nat -> get_points l 2 = Ok l).
  { intros l Hl. unfold get_points. now rewrite Hl. }
  repeat split.
  - intros clicked Hl. unfold workflow_vector. now rewrite Hbad.
  - intros house street Hl. unfold workflow_frontage. now rewrite Hbad.
  - intros house street Hh Hs. unfold workflow_frontage.
    rewrite Hgood by assumption. simpl. now rewrite Hbad.
  - intros clicked Hl [e He]. unfold workflow_vector in He.
    rewrite Hgood in He by assumption. discriminate He.
  - intros house street Hh Hs [e He]. unfold workflow_frontage in He.
    rewrite !Hgood in He by assumption. discriminate He.
Qed.

(** *** Unit vectors, again *)

Lemma point_zero_dec (v : point) : {v = (0, 0)} + {v <> (0, 0)}.
Proof.
  destruct v as [x y].
  destruct (Req_dec_T x 0) as [->|Hx].
  - destruct (Req_dec_T y 0) as [->|Hy]; [now left|].
    right. intros H. inversion H. contradiction.
  - right. intros H. inversion H. contradiction.
Qed.

Lemma hypot_scale (x y k : R) :
  0 <= k -> Py.hypot (x * k) (y * k) = k * Py.hypot x y.
Proof.
  intros Hk. unfold Py.hypot.
  replace (x * k * (x * k) + y * k * (y * k)) with (k * k * (x * x + y * y))
    by ring.
  rewrite sqrt_mult_alt by nra. now rewrite sqrt_square.
Qed.

Lemma unit_idempotent (v : point) : unit (unit v) = unit v.
Proof.
  destruct (point_zero_dec v) as [->|Hv].
  - now rewrite !unit_zero.
  - apply unit_of_length_one. now apply unit_length.
Qed.

Lemma unit_scale_pos (v : point) (k : R) : 0 < k -> unit (scale v k) = unit v.
Proof.
  intros Hk. unfold unit, scale. simpl fst. simpl snd.
  rewrite hypot_scale by lra.
  destruct (Req_dec_T (Py.hypot (fst v) (snd v)) 0) as [Hz|Hnz].
  - rewrite Hz, Rmult_0_r. destruct (Req_dec_T 0 0); [reflexivity | lra].
  - destruct (Req_dec_T (k * Py.hypot (fst v) (snd v)) 0) as [Hz|_].
    + exfalso. apply Rmult_integral in Hz. destruct Hz; [lra | contradiction].
    + f_equal; field; split; lra.
Qed.

Lemma unit_scale_neg (v : point) : unit (scale v (-1)) = scale (unit v) (-1).
Proof.
  unfold unit at 1. rewrite scale_neg_length. unfold unit.
  destruct (Req_dec_T (Py.hypot (fst v) (snd v)) 0) as [Hz|Hnz].
  - unfold scale. simpl. f_equal; ring.
  - unfold scale. simpl. f_equal; field; assumption.
Qed.

Lemma unit_rebuild (v : point) :
  scale (unit v) (Py.hypot (fst v) (snd v)) = v.
Proof.
  destruct (point_zero_dec v) as [->|Hv].
  - rewrite unit_zero. unfold scale. simpl. f_equal; ring.
  - destruct (unit_nonzero v Hv) as [-> Hn]. destruct v as [x y].
    unfold scale. simpl in *. f_equal; field; assumption.
Qed.

Lemma dot_unit_r (n w : point) :
  dot n (unit w) * Py.hypot (fst w) (snd w) = dot n w.
Proof.
  pose proof (unit_rebuild w) as H.
  pose proof (f_equal fst H) as Hx. pose proof (f_equal snd H) as Hy.
  unfold scale in Hx, Hy. simpl in Hx, Hy. unfold dot.
  set (u := unit w) in *. set (h := Py.hypot (fst w) (snd w)) in *.
  rewrite <- Hx, <- Hy. ring.
Qed.

(** X6.  [unit] rescales and nothing else: a non-zero vector becomes a
    vector of length 1 that, scaled back by the original length, is the
    vector again; the zero vector stays zero; normalizing twice, or
    normalizing a positive multiple, gives the same unit vector. *)
Theorem unit_rescales (v : point) (k : R) :
  0 < k ->
  (v = (0, 0) -> unit v = (0, 0))
  /\ (v <> (0, 0) -> Py.hypot (fst (unit v)) (snd (unit v)) = 1)
  /\ scale (unit v) (Py.hypot (fst v) (snd v)) = v
  /\ unit (unit v) = unit v
  /\ unit (scale v k) = unit v
  /\ unit (scale v (-1)) = scale (unit v) (-1).
Proof.
  intros Hk. repeat split.
  - intros ->. apply unit_zero.
  - apply unit_length.
  - apply unit_rebuild.
  - apply unit_idempotent.
  - now apply unit_scale_pos.
  - apply unit_scale_neg.
Qed.

(** *** The frontage resolver, again *)

Lemma midpoint_comm (p q : point) : midpoint p q = midpoint q p.
Proof. unfold midpoint. f_equal; field. Qed.

Lemma frontage_to_street_street_swap (h0 h1 s0 s1 : point) :
  frontage_to_street h0 h1 s1 s0 = frontage_to_street h0 h1 s0 s1.
Proof. unfold frontage_to_street. now rewrite (midpoint_comm s1 s0). Qed.

Lemma frontage_to_street_house_swap (h0 h1 s0 s1 : point) :
  frontage_to_street h1 h0 s0 s1 = frontage_to_street h0 h1 s0 s1.
Proof. unfold frontage_to_street. now rewrite (midpoint_comm h1 h0). Qed.

Lemma frontage_n_left_house_swap (h0 h1 : point) :
  h0 <> h1 -> frontage_n_left h1 h0 = frontage_n_right h0 h1.
Proof.
  intros Hne. rewrite frontage_n_right_opposite by assumption.
  unfold frontage_n_left, frontage_f_u.
  replace (subtract h0 h1) with (scale (subtract h1 h0) (-1))
    by (unfold subtract, scale; simpl; f_equal; ring).
  rewrite unit_scale_neg.
  replace (perp (scale (unit (subtract h1 h0)) (-1)))
    with (scale (perp (unit (subtract h1 h0))) (-1))
    by (unfold perp, scale; simpl; f_equal; ring).
  apply unit_scale_neg.
Qed.

Lemma frontage_n_right_house_swap (h0 h1 : point) :
  h0 <> h1 -> frontage_n_right h1 h0 = frontage_n_left h0 h1.
Proof.
  intros Hne. unfold frontage_n_right at 1.
  rewrite frontage_n_left_house_swap, frontage_n_right_opposite by assumption.
  rewrite scale_neg_involutive. apply unit_of_length_one.
  now apply frontage_n_left_length.
Qed.

Lemma frontage_n_face_house_swap (h0 h1 s0 s1 : point) :
  h0 <> h1 ->
  frontage_n_face h1 h0 s0 s1 = frontage_n_face_swapped h0 h1 s0 s1.
Proof.
  intros Hne. unfold frontage_n_face, frontage_n_face_swapped.
  rewrite (frontage_n_left_house_swap h0 h1) by assumption.
  rewrite (frontage_n_right_house_swap h0 h1) by assumption.
  now rewrite frontage_to_street_house_swap.
Qed.

Lemma frontage_swapped_same_off_tie (h0 h1 s0 s1 : point) :
  h0 <> h1 ->
  dot (frontage_n_left h0 h1) (frontage_to_street h0 h1 s0 s1) <> 0 ->
  frontage_n_face_swapped h0 h1 s0 s1 = frontage_n_face h0 h1 s0 s1.
Proof.
  intros Hne Hoff.
  unfold frontage_n_face, frontage_n_face_swapped, pick_normal.
  set (ts := frontage_to_street h0 h1 s0 s1) in *.
  assert (Hd : dot (frontage_n_right h0 h1) ts = - dot (frontage_n_left h0 h1) ts).
  { rewrite frontage_n_right_opposite by assumption. apply dot_scale_neg. }
  destruct (Rge_dec (dot (frontage_n_left h0 h1) ts)
                    (dot (frontage_n_right h0 h1) ts));
    destruct (Rge_dec (dot (frontage_n_right h0 h1) ts)
                      (dot (frontage_n_left h0 h1) ts));
    try reflexivity; exfalso; lra.
Qed.

Lemma perp_unit (v : point) : perp (unit v) = unit (perp v).
Proof.
  unfold unit at 2. rewrite perp_length. unfold unit.
  destruct (Req_dec_T (Py.hypot (fst v) (snd v)) 0).
  - unfold perp. simpl. f_equal. ring.
  - unfold perp. simpl. f_equal. field. assumption.
Qed.

(** The street mid-point lies off the frontage line exactly when the
    normal and [to_street] are not orthogonal. *)
Lemma frontage_off_line (h0 h1 s0 s1 : point) :
  h0 <> h1 ->
  dot (perp (subtract h1 h0))
      (subtract (midpoint s0 s1) (midpoint h0 h1)) <> 0 ->
  dot (frontage_n_left h0 h1) (frontage_to_street h0 h1 s0 s1) <> 0.
Proof.
  intros Hne Hoff Hz. apply Hoff.
  rewrite frontage_n_left_perp in Hz by assumption.
  unfold frontage_to_street in Hz.
  set (w := subtract (midpoint s0 s1) (midpoint h0 h1)) in *.
  set (f := subtract h1 h0) in *.
  rewrite <- (dot_unit_r (perp f) w).
  rewrite <- (unit_rebuild (perp f)) at 1.
  rewrite <- perp_unit.
  replace (dot (scale (perp (unit f)) (Py.hypot (fst (perp f)) (snd (perp f))))
               (unit w))
    with (Py.hypot (fst (perp f)) (snd (perp f)) * dot (perp (unit f)) (unit w))
    by (unfold dot, scale; simpl; ring).
  rewrite Hz. ring.
Qed.

Lemma frontage_n_face_facts (h0 h1 s0 s1 : point) :
  h0 <> h1 ->
  Py.hypot (fst (frontage_n_face h0 h1 s0 s1))
           (snd (frontage_n_face h0 h1 s0 s1)) = 1
  /\ dot (frontage_n_face h0 h1 s0 s1) (subtract h1 h0) = 0
  /\ dot (frontage_n_face h0 h1 s0 s1)
         (subtract (midpoint s0 s1) (midpoint h0 h1)) >= 0.
Proof.
  intros Hne.
  pose proof (frontage_n_left_length h0 h1 Hne) as Hl.
  pose proof (frontage_n_right_opposite h0 h1 Hne) as Hr.
  assert (Hperp : dot (frontage_n_left h0 h1) (subtract h1 h0) = 0).
  { rewrite frontage_n_left_perp by assumption.
    destruct (unit_nonzero _ (subtract_nonzero h0 h1 Hne)) as [-> Hn].
    unfold dot, perp. simpl. field. exact Hn. }
  assert (Hts : dot (frontage_n_face h0 h1 s0 s1)
                    (frontage_to_street h0 h1 s0 s1) >= 0).
  { unfold frontage_n_face, pick_normal.
    destruct (Rge_dec _ _) as [Hge|Hlt];
      rewrite Hr, dot_scale_neg in *; lra. }
  split; [|split].
  - unfold frontage_n_face, pick_normal. destruct (Rge_dec _ _).
    + exact Hl.
    + rewrite Hr, scale_neg_length. exact Hl.
  - unfold frontage_n_face, pick_normal. destruct (Rge_dec _ _).
    + exact Hperp.
    + rewrite Hr, dot_scale_neg. lra.
  - unfold frontage_to_street in Hts.
    rewrite <- dot_unit_r.
    pose proof (hypot_nonneg
                  (fst (subtract (midpoint s0 s1) (midpoint h0 h1)))
                  (snd (subtract (midpoint s0 s1) (midpoint h0 h1)))).
    nra.
Qed.

Lemma square_one (t : R) : t * t = 1 -> t = 1 \/ t = -1.
Proof.
  intros H. assert (H0 : (t - 1) * (t + 1) = 0) by lra.
  apply Rmult_integral in H0. destruct H0; [left | right]; lra.
Qed.

(** A unit vector orthogonal to (a, 0) that does not point away from
    (wx, wy) is (0, 1) or (0, -1), according to the sign of wy. *)
Lemma unit_normal_of_horizontal (n1 n2 a wx wy : R) :
  a <> 0 -> wy <> 0 ->
  Py.hypot n1 n2 = 1 ->
  n1 * a + n2 * 0 = 0 ->
  n1 * wx + n2 * wy >= 0 ->
  n1 = 0 /\ (0 < wy -> n2 = 1) /\ (wy < 0 -> n2 = -1).
Proof.
  intros Ha Hw Hlen Hperp Hdot.
  assert (Hn1 : n1 = 0).
  { assert (H : n1 * a = 0) by lra.
    apply Rmult_integral in H. destruct H; [assumption | contradiction]. }
  subst n1.
  pose proof (hypot_sqr 0 n2) as Hs. rewrite Hlen in Hs.
  assert (Hsq : n2 * n2 = 1) by lra.
  destruct (square_one n2 Hsq) as [->| ->].
  - split; [reflexivity|]. split; intros H; [reflexivity | exfalso; lra].
  - split; [reflexivity|]. split; intros H; [exfalso; lra | reflexivity].
Qed.

Lemma unit_normal_of_vertical (n1 n2 a wx wy : R) :
  a <> 0 -> wx <> 0 ->
  Py.hypot n1 n2 = 1 ->
  n1 * 0 + n2 * a = 0 ->
  n1 * wx + n2 * wy >= 0 ->
  n2 = 0 /\ (0 < wx -> n1 = 1) /\ (wx < 0 -> n1 = -1).
Proof.
  intros Ha Hw Hlen Hperp Hdot.
  assert (Hn2 : n2 = 0).
  { assert (H : n2 * a = 0) by lra.
    apply Rmult_integral in H. destruct H; [assumption | contradiction]. }
  subst n2.
  pose proof (hypot_sqr n1 0) as Hs. rewrite Hlen in Hs.
  assert (Hsq : n1 * n1 = 1) by lra.
  destruct (square_one n1 Hsq) as [->| ->].
  - split; [reflexivity|]. split; intros H; [reflexivity | exfalso; lra].
  - split; [reflexivity|]. split; intros H; [exfalso; lra | reflexivity].
Qed.

Lemma degrees_pi : Py.degrees PI = 180.
Proof. unfold Py.degrees. field. apply PI_neq0. Qed.

Lemma atan2_west (z x : R) : x < 0 -> Py.atan2 z 0 x = PI.
Proof.
  intros Hx. unfold Py.atan2.
  destruct (Rlt_dec 0 x); [lra|]. destruct (Rlt_dec x 0); [|lra].
  destruct (Rle_dec 0 0); [|lra].
  unfold Rdiv. now rewrite Rmult_0_l, atan_0, Rplus_0_l.
Qed.

Lemma bearing_down : bearing_from_vector 0 1 = 180.
Proof.
  unfold bearing_from_vector. rewrite atan2_west by lra.
  rewrite degrees_pi, normalize_angle_deg_fmod. apply fmod_small; lra.
Qed.

Lemma bearing_up : bearing_from_vector 0 (-1) = 0.
Proof.
  unfold bearing_from_vector. replace (- -1) with 1 by lra.
  rewrite atan2_east, degrees_0, normalize_angle_deg_fmod.
  apply fmod_small; lra.
Qed.

Lemma bearing_right : bearing_from_vector 1 0 = 90.
Proof.
  unfold bearing_from_vector. rewrite Ropp_0, atan2_north, degrees_half_pi.
  rewrite normalize_angle_deg_fmod. apply fmod_small; lra.
Qed.

Lemma bearing_left : bearing_from_vector (-1) 0 = 270.
Proof.
  unfold bearing_from_vector, Py.atan2. rewrite Ropp_0.
  destruct (Rlt_dec 0 0); [lra|]. destruct (Rlt_dec 0 (-1)); [lra|].
  destruct (Rlt_dec (-1) 0); [|lra].
  replace (Py.degrees (- (PI / 2))) with (270 + 360 * IZR (-1))
    by (unfold Py.degrees; field; apply PI_neq0).
  rewrite normalize_angle_deg_fmod. apply fmod_shift; lra.
Qed.

Lemma frontage_n_face_horizontal (x0 x1 y : R) (s0 s1 : point) :
  x0 <> x1 ->
  (y < snd (midpoint s0 s1) ->
   frontage_n_face (x0, y) (x1, y) s0 s1 = (0, 1))
  /\ (snd (midpoint s0 s1) < y ->
      frontage_n_face (x0, y) (x1, y) s0 s1 = (0, -1)).
Proof.
  intros Hx.
  assert (Hne : (x0, y) <> (x1, y)).
  { intros H. inversion H. contradiction. }
  destruct (frontage_n_face_facts (x0, y) (x1, y) s0 s1 Hne)
    as (Hlen & Hperp & Hdot).
  destruct (frontage_n_face (x0, y) (x1, y) s0 s1) as [n1 n2].
  unfold dot, subtract, midpoint in *. simpl in *.
  replace (y - y) with 0 in Hperp by ring.
  assert (Ha : x1 - x0 <> 0) by lra.
  match type of Hdot with
  | n1 * ?wx + n2 * ?wy >= 0 =>
      pose proof (unit_normal_of_horizontal n1 n2 (x1 - x0) wx wy Ha) as H
  end.
  split; intros Hs.
  - destruct H as (-> & Hp & _); try assumption.
    + apply Rgt_not_eq. lra.
    + rewrite Hp by lra. reflexivity.
  - destruct H as (-> & _ & Hn); try assumption.
    + apply Rlt_not_eq. lra.
    + rewrite Hn by lra. reflexivity.
Qed.

Lemma frontage_n_face_vertical (x y0 y1 : R) (s0 s1 : point) :
  y0 <> y1 ->
  (x < fst (midpoint s0 s1) ->
   frontage_n_face (x, y0) (x, y1) s0 s1 = (1, 0))
  /\ (fst (midpoint s0 s1) < x ->
      frontage_n_face (x, y0) (x, y1) s0 s1 = (-1, 0)).
Proof.
  intros Hy.
  assert (Hne : (x, y0) <> (x, y1)).
  { intros H. inversion H. contradiction. }
  destruct (frontage_n_face_facts (x, y0) (x, y1) s0 s1 Hne)
    as (Hlen & Hperp & Hdot).
  destruct (frontage_n_face (x, y0) (x, y1) s0 s1) as [n1 n2].
  unfold dot, subtract, midpoint in *. simpl in *.
  replace (x - x) with 0 in Hperp by ring.
  assert (Ha : y1 - y0 <> 0) by lra.
  match type of Hdot with
  | n1 * ?wx + n2 * ?wy >= 0 =>
      pose proof (unit_normal_of_vertical n1 n2 (y1 - y0) wx wy Ha) as H
  end.
  split; intros Hs.
  - destruct H as (-> & Hp & _); try assumption.
    + apply Rgt_not_eq. lra.
    + rewrite Hp by lra. reflexivity.
  - destruct H as (-> & _ & Hn); try assumption.
    + apply Rlt_not_eq. lra.
    + rewrite Hn by lra. reflexivity.
Qed.

(** X7.  The order of the clicks does not matter: exchanging the two
    street clicks never changes the answer of [workflow_frontage], and
    exchanging the two frontage clicks does not change it either as long as
    the street mid-point is off the frontage line. *)
Theorem workflow_frontage_click_order :
  (forall h0 h1 s0 s1 : point,
      workflow_frontage [h0; h1] [s1; s0] = workflow_frontage [h0; h1] [s0; s1])
  /\ (forall h0 h1 s0 s1 : point,
         h0 <> h1 ->
         dot (perp (subtract h1 h0))
             (subtract (midpoint s0 s1) (midpoint h0 h1)) <> 0 ->
         workflow_frontage [h1; h0] [s0; s1]
         = workflow_frontage [h0; h1] [s0; s1]).
Proof.
  split.
  - intros. rewrite !workflow_frontage_four_points.
    unfold frontage_n_face. now rewrite frontage_to_street_street_swap.
  - intros h0 h1 s0 s1 Hne Hoff. rewrite !workflow_frontage_four_points.
    rewrite frontage_n_face_house_swap by assumption.
    rewrite frontage_swapped_same_off_tie; [reflexivity | assumption |].
    now apply frontage_off_line.
Qed.

(** X8.  For a frontage with distinct end points [workflow_frontage]
    returns a bearing b and the label of its sector; the direction of b,
    (sin b, - cos b) in image coordinates, is the selected normal: it is
    perpendicular to the frontage and does not point away from the street
    mid-point.  The bearing lies in [0, 360]; the upper end is included
    because the float remainder can round to 360.0, which carries the
    label N. *)
Theorem workflow_frontage_faces_street (h0 h1 s0 s1 : point) :
  h0 <> h1 ->
  exists b : R,
    workflow_frontage [h0; h1] [s0; s1] = Ok (b, sector_label b)
    /\ 0 <= b <= 360
    /\ frontage_n_face h0 h1 s0 s1 = (sin (radians b), - cos (radians b))
    /\ dot (sin (radians b), - cos (radians b)) (subtract h1 h0) = 0
    /\ dot (sin (radians b), - cos (radians b))
           (subtract (midpoint s0 s1) (midpoint h0 h1)) >= 0.
Proof.
  intros Hne.
  destruct (frontage_n_face_facts h0 h1 s0 s1 Hne) as (Hlen & Hperp & Hdot).
  set (n := frontage_n_face h0 h1 s0 s1) in *.
  exists (bearing_from_vector (fst n) (snd n)).
  pose proof (bearing_from_vector_range (fst n) (snd n)) as Hrange.
  assert (Hv : fst n <> 0 \/ snd n <> 0).
  { apply pair_nonzero. rewrite <- surjective_pairing.
    now apply length_one_nonzero. }
  destruct (bearing_from_vector_direction (fst n) (snd n) Hv) as [Hs Hc].
  rewrite Hlen, Rmult_1_l in Hs, Hc.
  assert (Hn : n = (sin (radians (bearing_from_vector (fst n) (snd n))),
                    - cos (radians (bearing_from_vector (fst n) (snd n))))).
  { rewrite <- Hs, <- Hc. apply surjective_pairing. }
  split; [|split; [lra | split; [exact Hn|]]].
  - rewrite workflow_frontage_four_points. fold n.
    now rewrite compass_8_sector.
  - rewrite <- Hn. split; assumption.
Qed.

(** X9.  A frontage along an image axis faces the side the street is on:
    a horizontal frontage faces south (180, S) when the street mid-point is
    below it and north (0, N) when it is above; a vertical frontage faces
    east (90, E) when the street mid-point is to its right and west (270, W)
    when it is to its left. *)
Theorem axis_aligned_frontage_faces_street_side :
  (forall (x0 x1 y : R) (s0 s1 : point),
      x0 <> x1 ->
      (y < snd (midpoint s0 s1) ->
       workflow_frontage [(x0, y); (x1, y)] [s0; s1] = Ok (180, "S"%string))
      /\ (snd (midpoint s0 s1) < y ->
          workflow_frontage [(x0, y); (x1, y)] [s0; s1] = Ok (0, "N"%string)))
  /\ (forall (x y0 y1 : R) (s0 s1 : point),
         y0 <> y1 ->
         (x < fst (midpoint s0 s1) ->
          workflow_frontage [(x, y0); (x, y1)] [s0; s1] = Ok (90, "E"%string))
         /\ (fst (midpoint s0 s1) < x ->
             workflow_frontage [(x, y0); (x, y1)] [s0; s1]
             = Ok (270, "W"%string))).
Proof.
  split.
  - intros x0 x1 y s0 s1 Hx.
    destruct (frontage_n_face_horizontal x0 x1 y s0 s1 Hx) as [Hs Hn].
    split; intros H; rewrite workflow_frontage_four_points.
    + rewrite (Hs H). simpl fst. simpl snd. rewrite bearing_down.
      do 2 f_equal. apply (compass_8_floor 180 4). lra.
    + rewrite (Hn H). simpl fst. simpl snd. rewrite bearing_up.
      do 2 f_equal. apply (compass_8_floor 0 0). lra.
  - intros x y0 y1 s0 s1 Hy.
    destruct (frontage_n_face_vertical x y0 y1 s0 s1 Hy) as [He Hw].
    split; intros H; rewrite workflow_frontage_four_points.
    + rewrite (He H). simpl fst. simpl snd. rewrite bearing_right.
      do 2 f_equal. apply (compass_8_floor 90 2). lra.
    + rewrite (Hw H). simpl fst. simpl snd. rewrite bearing_left.
      do 2 f_equal. apply (compass_8_floor 270 6). lra.
Qed.

(** *** The compass table on every real bearing *)

Lemma compass_index_rotate (b : R) (k : Z) :
  compass_index (b + 45 * IZR k) = ((compass_index b + k) mod 8)%Z.
Proof.
  rewrite !compass_index_floor.
  replace ((b + 45 * IZR k + 22.5) / 45) with ((b + 22.5) / 45 + IZR k)
    by field.
  rewrite Zfloor_addz. now rewrite Z.add_mod_idemp_l by lia.
Qed.

Lemma compass_8_add_turns (b : R) (k : Z) :
  compass_8 (b + 360 * IZR k) = compass_8 b.
Proof.
  unfold compass_8. f_equal. f_equal.
  replace (b + 360 * IZR k) with (b + 45 * IZR (8 * k))
    by (rewrite mult_IZR; ring).
  rewrite compass_index_rotate.
  replace (compass_index b + 8 * k)%Z with (compass_index b + k * 8)%Z by lia.
  rewrite Z.mod_add by lia. rewrite compass_index_floor.
  apply Z.mod_mod. lia.
Qed.

Lemma compass_8_normalized (b : R) :
  compass_8 b = sector_label (normalize_angle_deg b).
Proof.
  rewrite <- compass_8_sector.
  - rewrite normalize_angle_deg_fmod. unfold Py.fmod.
    replace (b - 360 * IZR (Zfloor (b / 360)))
      with (b + 360 * IZR (- Zfloor (b / 360)))
      by (rewrite opp_IZR; ring).
    now rewrite compass_8_add_turns.
  - rewrite normalize_angle_deg_fmod. apply fmod_range. lra.
Qed.

(** X10.  [compass_8] accepts any real bearing, not only a normalized one:
    it names the sector of the bearing taken modulo 360, a whole number of
    turns changes nothing, every 45 degrees added move the label one step
    clockwise in the table, and the result is always one of the eight
    labels. *)
Theorem compass_8_on_every_real (b : R) (k : Z) :
  compass_8 b = sector_label (normalize_angle_deg b)
  /\ compass_8 (b + 360 * IZR k) = compass_8 b
  /\ compass_index (b + 45 * IZR k) = ((compass_index b + k) mod 8)%Z
  /\ In (compass_8 b) dirs.
Proof.
  split; [apply compass_8_normalized|].
  split; [apply compass_8_add_turns|].
  split; [apply compass_index_rotate|].
  unfold compass_8. apply nth_In. apply compass_index_in_table.
Qed.

(** *** What the road search reports *)

Lemma round_half_even_near (x : R) :
  Rabs (IZR (Py.round_half_even x) - x) <= 1 / 2
  /\ (Zfloor x <= Py.round_half_even x <= Zfloor x + 1)%Z.
Proof.
  unfold Py.round_half_even.
  destruct (Zfloor_bound x) as [Hlo Hhi].
  destruct (Rlt_dec (x - IZR (Zfloor x)) (1 / 2)) as [H1|H1].
  - split; [|lia]. rewrite Rabs_left1 by lra. lra.
  - destruct (Rlt_dec (1 / 2) (x - IZR (Zfloor x))) as [H2|H2].
    + split; [|lia]. rewrite plus_IZR. rewrite Rabs_right by lra. lra.
    + destruct (Z.even (Zfloor x)).
      * split; [|lia]. rewrite Rabs_left1 by lra. lra.
      * split; [|lia]. rewrite plus_IZR. rewrite Rabs_right by lra. lra.
Qed.

Lemma round2_near (x : R) : Rabs (Py.round2 x - x) <= 1 / 200.
Proof.
  unfold Py.round2.
  destruct (round_half_even_near (x * 100)) as [H _].
  replace (IZR (Py.round_half_even (x * 100)) / 100 - x)
    with ((IZR (Py.round_half_even (x * 100)) - x * 100) / 100) by field.
  unfold Rdiv at 1. rewrite Rabs_mult, (Rabs_right (/ 100)) by lra. lra.
Qed.

Lemma round2_bearing_range (b : R) :
  0 <= b < 360 -> 0 <= Py.round2 b <= 360.
Proof.
  intros Hb. unfold Py.round2.
  destruct (round_half_even_near (b * 100)) as [_ [Hlo Hhi]].
  assert (H0 : (0 <= Zfloor (b * 100))%Z) by (apply Zfloor_lub; simpl; lra).
  assert (H1 : (Zfloor (b * 100) < 36000)%Z).
  { apply lt_IZR. destruct (Zfloor_bound (b * 100)). lra. }
  assert (Hl : (0 <= Py.round_half_even (b * 100))%Z) by lia.
  assert (Hh : (Py.round_half_even (b * 100) <= 36000)%Z) by lia.
  apply IZR_le in Hl, Hh. lra.
Qed.

Lemma round2_full_turn (b : R) :
  0 <= b < 360 -> (Py.round2 b = 360 <-> 359.995 <= b).
Proof.
  intros Hb. unfold Py.round2, Py.round_half_even.
  destruct (Zfloor_bound (b * 100)) as [Hlo Hhi].
  assert (H1 : (Zfloor (b * 100) <= 35999)%Z).
  { apply Z.lt_succ_r. apply lt_IZR. simpl. lra. }
  split.
  - intros Hr.
    assert (Hz : IZR (if Rlt_dec (b * 100 - IZR (Zfloor (b * 100))) (1 / 2)
                      then Zfloor (b * 100)
                      else if Rlt_dec (1 / 2) (b * 100 - IZR (Zfloor (b * 100)))
                           then (Zfloor (b * 100) + 1)%Z
                           else if Z.even (Zfloor (b * 100))
                                then Zfloor (b * 100)
                                else (Zfloor (b * 100) + 1)%Z) = 36000) by lra.
    apply eq_IZR in Hz.
    destruct (Rlt_dec (b * 100 - IZR (Zfloor (b * 100))) (1 / 2)) as [H2|H2];
      [lia|].
    assert (Hf : Zfloor (b * 100) = 35999%Z).
    { destruct (Rlt_dec (1 / 2) (b * 100 - IZR (Zfloor (b * 100))));
        [lia|]. destruct (Z.even (Zfloor (b * 100))); lia. }
    rewrite Hf in H2. lra.
  - intros Hge.
    assert (Hf : Zfloor (b * 100) = 35999%Z) by (apply Zfloor_eq; lra).
    rewrite Hf.
    destruct (Rlt_dec (b * 100 - 35999) (1 / 2)) as [H2|H2]; [lra|].
    destruct (Rlt_dec (1 / 2) (b * 100 - 35999)); simpl; lra.
Qed.

Section Report.

Variable to_3857_xy : R -> R -> point.
Variable distance : point -> linestring -> R.
Variable project : linestring -> point -> R.
Variable interpolate : linestring -> R -> point.


End Report.


(** *** Distances that are not finite numbers *)

Section NonFiniteFacts.

Variable to_3857_xy : R -> R -> point.
Variable project : linestring -> point -> R.
Variable interpolate : linestring -> R -> point.

Lemma float_lt_inf (d : pyfloat) :
  float_lt d PosInf = true <-> (exists x, d = Finite x) \/ d = NegInf.
Proof.
  destruct d; simpl; split; intros H; try discriminate; try reflexivity.
  - left. now exists x.
  - destruct H as [[x H]|H]; discriminate.
  - now right.
  - destruct H as [[x H]|H]; discriminate.
Qed.







End NonFiniteFacts.

(** X12.  With at least one road, the report holds the values the
    function computed, rounded to two decimals.  The selected road [best]
    is the first projected road at least distance from the house point p;
    the reported distance is [round(distance(p, best), 2)] and the reported
    bearing is the rounded bearing from p to
    [best.interpolate(best.project(p))].  Each reported value is within
    0.005 of the computed one.  The compass label is taken from the
    unrounded bearing: the reported bearing is 360.0 exactly when the
    bearing is at least 359.995, and its label is then N. *)
Theorem report_is_rounded_to_two_decimals
        (to_3857_xy : R -> R -> point)
        (distance : point -> linestring -> R)
        (project : linestring -> point -> R)
        (interpolate : linestring -> R -> point)
        (lon lat : R) (roads : list linestring) :
  roads <> [] ->
  exists (i : nat) (best : linestring),
    first_minimum (distance (to_3857_xy lon lat))
                  (map (project_road to_3857_xy) roads) i best
    /\ (let p := to_3857_xy lon lat in
        let q := interpolate best (project best p) in
        let bearing :=
          bearing_from_point_to_point (fst p) (snd p) (fst q) (snd q) in
        let best_dist := distance p best in
        nearest_road_bearing_from_address
          to_3857_xy distance project interpolate lon lat roads
        = Ok {| rep_lat := lat; rep_lon := lon;
                rep_bearing_deg := Some (Py.round2 bearing);
                rep_compass := Some (compass_8 bearing);
                rep_distance_to_road_m := Some (Py.round2 best_dist);
                rep_note := None |}
        /\ Rabs (Py.round2 bearing - bearing) <= 1 / 200
        /\ Rabs (Py.round2 best_dist - best_dist) <= 1 / 200
        /\ 0 <= Py.round2 bearing <= 360
        /\ (Py.round2 bearing = 360 <-> 359.995 <= bearing)
        /\ (359.995 <= bearing -> compass_8 bearing = "N"%string)).
Proof.
  intros Hne.
  destruct (nearest_road_bearing_nonempty
              to_3857_xy distance project interpolate lon lat roads Hne)
    as (i & best & Hfirst & _ & Hrep).
  exists i, best. split; [exact Hfirst|]. cbv zeta in Hrep |- *.
  set (p := to_3857_xy lon lat) in *.
  set (q := interpolate best (project best p)) in *.
  pose proof (bearing_from_point_to_point_range (fst p) (snd p) (fst q) (snd q))
    as Hrange.
  set (bearing := bearing_from_point_to_point (fst p) (snd p) (fst q) (snd q))
    in *.
  split.
  { rewrite Hrep. now rewrite bearing_to_compass_same. }
  split; [apply round2_near|]. split; [apply round2_near|].
  split; [now apply round2_bearing_range|].
  split; [now apply round2_full_turn|].
  intros Hb. apply (compass_8_floor bearing 8). lra.
Qed.

(** X13.  When exactly one projected road is nearest, the answer does not
    depend on the order in which the roads were fetched: any permutation of
    the road list gives the same selected road and the same report. *)
Theorem nearest_road_order_independent
        (to_3857_xy : R -> R -> point)
        (distance : point -> linestring -> R)
        (project : linestring -> point -> R)
        (interpolate : linestring -> R -> point)
        (lon lat : R) (roads roads' : list linestring) :
  Permutation roads roads' ->
  (forall x y : linestring,
      In x (map (project_road to_3857_xy) roads) ->
      In y (map (project_road to_3857_xy) roads) ->
      (forall z, In z (map (project_road to_3857_xy) roads) ->
                 distance (to_3857_xy lon lat) x
                 <= distance (to_3857_xy lon lat) z) ->
      (forall z, In z (map (project_road to_3857_xy) roads) ->
                 distance (to_3857_xy lon lat) y
                 <= distance (to_3857_xy lon lat) z) ->
      x = y) ->
  nearest_road to_3857_xy distance (to_3857_xy lon lat) roads' None
  = nearest_road to_3857_xy distance (to_3857_xy lon lat) roads None
  /\ nearest_road_bearing_from_address
       to_3857_xy distance project interpolate lon lat roads'
     = nearest_road_bearing_from_address
         to_3857_xy distance project interpolate lon lat roads.
Proof.
  intros Hperm Huniq.
  destruct roads as [|r rest].
  - apply Permutation_nil in Hperm. subst roads'. now split.
  - assert (Hne : r :: rest <> []) by discriminate.
    assert (Hne' : roads' <> []).
    { intros ->. apply Permutation_sym, Permutation_nil in Hperm.
      discriminate. }
    destruct (nearest_road_bearing_nonempty
                to_3857_xy distance project interpolate lon lat _ Hne)
      as (i & best & (Hnth & Hmin & _) & Hloop & Hrep).
    destruct (nearest_road_bearing_nonempty
                to_3857_xy distance project interpolate lon lat _ Hne')
      as (i' & best' & (Hnth' & Hmin' & _) & Hloop' & Hrep').
    assert (Hmap : Permutation (map (project_road to_3857_xy) (r :: rest))
                               (map (project_road to_3857_xy) roads'))
      by now apply Permutation_map.
    apply nth_error_In in Hnth, Hnth'.
    assert (Heq : best' = best).
    { apply Huniq.
      - eapply Permutation_in; [apply Permutation_sym; exact Hmap | exact Hnth'].
      - exact Hnth.
      - intros z Hz. apply Hmin'. eapply Permutation_in; [exact Hmap | exact Hz].
      - exact Hmin. }
    subst best'. split.
    + now rewrite Hloop, Hloop'.
    + now rewrite Hrep, Hrep'.
Qed.

(** *** The OCR search, again *)

Lemma mean_points_single (p : point) : Py.mean_points [p] = p.
Proof.
  destruct p as [x y]. unfold Py.mean_points. simpl. f_equal; field.
Qed.

Lemma norm_nonneg (v : point) : 0 <= Py.norm v.
Proof. apply sqrt_pos. Qed.

Lemma norm_zero (v : point) : Py.norm v = 0 -> fst v = 0 /\ snd v = 0.
Proof. intros H. now apply hypot_zero_iff. Qed.

Lemma road_key_self (p : point) (t : string) : road_key p (t, p) = 0.
Proof.
  unfold road_key, Py.norm, subtract. simpl.
  replace ((fst p - fst p) * (fst p - fst p) + (snd p - snd p) * (snd p - snd p))
    with 0 by ring.
  apply sqrt_0.
Qed.

Lemma house_points_entry (texts : list (string * point))
      (target_label : string) (p : point) :
  In p (house_points texts target_label) -> In (target_label, p) texts.
Proof.
  unfold house_points. intros H. apply in_map_iff in H.
  destruct H as ([t q] & Hq & Hin). simpl in Hq. subst q.
  apply filter_In in Hin. destruct Hin as [Hin Heq]. simpl in Heq.
  apply String.eqb_eq in Heq. now subst t.
Qed.

Lemma road_candidates_entry (texts : list (string * point))
      (tp : string * point) :
  In tp (road_candidates texts)
  <-> In tp texts /\ (4 < String.length (fst tp))%nat.
Proof.
  unfold road_candidates. rewrite filter_In.
  now rewrite Nat.ltb_lt.
Qed.

(** X14.  Whenever [find_orientation] answers, the road word it names is
    one of the OCR words of more than 4 characters, the bearing lies in
    [0, 360) and is the image-plane bearing from the centroid of the house
    labels to that word's centroid, no long word is nearer to the house,
    and the compass label is that of the bearing's sector. *)
Theorem find_orientation_names_a_long_word
        (texts : list (string * point)) (target_label : string)
        (dir8 : string) (b : R) (road : string) :
  find_orientation texts target_label = Ok (dir8, b, road) ->
  exists road_point : point,
    In (road, road_point) texts
    /\ (4 < String.length road)%nat
    /\ b = bearing_from_vector
             (fst road_point - fst (Py.mean_points (house_points texts target_label)))
             (snd road_point - snd (Py.mean_points (house_points texts target_label)))
    /\ 0 <= b < 360
    /\ dir8 = sector_label b
    /\ (forall (t : string) (q : point),
           In (t, q) texts -> (4 < String.length t)%nat ->
           road_key (Py.mean_points (house_points texts target_label))
                    (road, road_point)
           <= road_key (Py.mean_points (house_points texts target_label)) (t, q)).
Proof.
  intros Hok. unfold find_orientation in Hok.
  destruct (house_points texts target_label) as [|h hs] eqn:Eh;
    [discriminate|].
  destruct (road_candidates texts) as [|c rest] eqn:Ec; [discriminate|].
  set (house := Py.mean_points (h :: hs)) in *.
  destruct (min_by_first_minimum (road_key house) c rest)
    as (i & Hnth & Hmin & _).
  set (tp := Py.min_by (road_key house) c rest) in *.
  cbv zeta in Hok. fold tp in Hok.
  injection Hok as Hd Hb Hr.
  apply nth_error_In in Hnth. rewrite <- Ec in Hnth, Hmin.
  apply road_candidates_entry in Hnth. destruct Hnth as [Hin Hlen].
  exists (snd tp).
  assert (Htp : tp = (road, snd tp)).
  { rewrite <- Hr. apply surjective_pairing. }
  rewrite <- Htp.
  assert (Hbv : b = bearing_from_vector (fst (snd tp) - fst house)
                                        (snd (snd tp) - snd house)).
  { rewrite <- Hb. apply bearing_from_vec_same. }
  assert (Hrange : 0 <= b < 360).
  { rewrite Hbv. apply bearing_from_vector_range. }
  repeat split; try assumption; try apply Hrange.
  - now rewrite <- Hr.
  - rewrite <- Hd, compass8_same. rewrite Hb. now apply compass_8_sector.
  - intros t q Hin' Hlen'. apply Hmin. apply road_candidates_entry.
    split; assumption.
Qed.

(** X15.  A target label of more than 4 characters is itself taken for a
    road name.  When it occurs exactly once, the nearest "road" lies on the
    house label itself, so the vector handed to the converter is the zero
    vector and the answer is the converter's value for it. *)
Theorem find_orientation_long_label_finds_itself
        (texts : list (string * point)) (target_label : string) (p : point) :
  (4 < String.length target_label)%nat ->
  house_points texts target_label = [p] ->
  exists road : string,
    In (road, p) texts
    /\ (4 < String.length road)%nat
    /\ find_orientation texts target_label
       = Ok (compass8 (bearing_from_vec 0 0), bearing_from_vec 0 0, road).
Proof.
  intros Hlen Hh.
  assert (Hin : In (target_label, p) texts).
  { apply house_points_entry. rewrite Hh. now left. }
  assert (Hcand : In (target_label, p) (road_candidates texts)).
  { apply road_candidates_entry. split; assumption. }
  unfold find_orientation. rewrite Hh, mean_points_single.
  destruct (road_candidates texts) as [|c rest] eqn:Ec; [destruct Hcand|].
  destruct (min_by_first_minimum (road_key p) c rest)
    as (i & Hnth & Hmin & _).
  set (tp := Py.min_by (road_key p) c rest) in *.
  assert (Hkey : road_key p tp = 0).
  { pose proof (Hmin _ Hcand) as Hle. rewrite road_key_self in Hle.
    pose proof (norm_nonneg (subtract (snd tp) p)) as Hge.
    unfold road_key in *. lra. }
  apply norm_zero in Hkey. unfold subtract in Hkey. simpl in Hkey.
  destruct Hkey as [Hx Hy].
  assert (Hp : snd tp = p).
  { destruct (snd tp) as [qx qy], p as [px py]. simpl in *. f_equal; lra. }
  apply nth_error_In in Hnth. rewrite <- Ec in Hnth.
  apply road_candidates_entry in Hnth. destruct Hnth as [Hin' Hlen'].
  exists (fst tp). split; [|split; [exact Hlen'|]].
  - rewrite <- Hp, <- surjective_pairing. exact Hin'.
  - cbv zeta. rewrite Hx, Hy. reflexivity.
Qed.

(** *** Reading the fetched ways *)

Lemma coord_found (pt : geometry_point) (c : point) :
  coord pt = Found c <-> pt_lon pt = Some (fst c) /\ pt_lat pt = Some (snd c).
Proof.
  unfold coord. destruct c as [x y]. simpl.
  destruct (pt_lon pt) as [lon|], (pt_lat pt) as [lat|]; split;
    try discriminate; try (intros [H1 H2]; discriminate).
  - intros H. injection H as -> ->. now split.
  - intros [H1 H2]. injection H1 as ->. injection H2 as ->. reflexivity.
Qed.

Lemma coords_found (geometry : list geometry_point) (cs : linestring) :
  coords geometry = Found cs ->
  List.length cs = List.length geometry
  /\ forall (i : nat) (pt : geometry_point),
       nth_error geometry i = Some pt ->
       exists c, nth_error cs i = Some c
                 /\ pt_lon pt = Some (fst c) /\ pt_lat pt = Some (snd c).
Proof.
  revert cs. induction geometry as [|pt rest IH]; intros cs H; simpl in H.
  - injection H as <-. split; [reflexivity|]. intros [|i] pt' Hn; discriminate.
  - destruct (coord pt) as [c|key] eqn:Ec; [|discriminate].
    destruct (coords rest) as [cs'|key] eqn:Er; [|discriminate].
    injection H as <-. destruct (IH cs' eq_refl) as [Hlen Hpts].
    split; [simpl; now rewrite Hlen|].
    intros [|i] pt' Hn; simpl in Hn.
    + injection Hn as <-. exists c. split; [reflexivity|].
      now apply coord_found.
    + simpl. now apply Hpts.
Qed.

Lemma coords_key (geometry : list geometry_point) (key : string) :
  coords geometry = KeyError key ->
  exists pt, In pt geometry
             /\ ((key = "lon"%string /\ pt_lon pt = None)
                 \/ (key = "lat"%string /\ pt_lat pt = None)).
Proof.
  induction geometry as [|pt rest IH]; simpl; [discriminate|].
  unfold coord at 1.
  destruct (pt_lon pt) as [lon|] eqn:Elon.
  - destruct (pt_lat pt) as [lat|] eqn:Elat.
    + destruct (coords rest) as [cs|key'] eqn:Er; [discriminate|].
      intros H. injection H as ->.
      destruct (IH eq_refl) as (pt' & Hin & Hk).
      exists pt'. split; [now right|exact Hk].
    + intros H. injection H as <-. exists pt. split; [now left|].
      right. now split.
  - intros H. injection H as <-. exists pt. split; [now left|].
    left. now split.
Qed.

Lemma coords_complete (geometry : list geometry_point) :
  (forall pt, In pt geometry -> pt_lon pt <> None /\ pt_lat pt <> None) ->
  exists cs, coords geometry = Found cs.
Proof.
  intros H. destruct (coords geometry) as [cs|key] eqn:E; [now exists cs|].
  apply coords_key in E. destruct E as (pt & Hin & Hk).
  destruct (H pt Hin) as [H1 H2].
  destruct Hk as [[_ Hk]|[_ Hk]]; contradiction.
Qed.

(** What one run of the loop appends: the coordinate lists of at least
    two points of the elements that have a geometry, in element order. *)
Fixpoint fetched (elements : list element) (new : list linestring) : Prop :=
  match elements with
  | [] => new = []
  | el :: rest =>
      match el_geometry el with
      | None => fetched rest new
      | Some geometry =>
          exists cs, coords geometry = Found cs
                     /\ if (2 <=? List.length cs)%nat
                        then exists new', new = cs :: new' /\ fetched rest new'
                        else fetched rest new
      end
  end.

Lemma fetch_loop_found (elements : list element)
      (roads out : list linestring) :
  fetch_loop elements roads = Found out ->
  exists new, out = roads ++ new /\ fetched elements new.
Proof.
  revert roads. induction elements as [|el rest IH]; intros roads H;
    cbn [fetch_loop] in H.
  - injection H as <-. exists []. split; [now rewrite app_nil_r|reflexivity].
  - cbn [fetched]. destruct (el_geometry el) as [geometry|]; [|now apply IH].
    destruct (coords geometry) as [cs|key] eqn:Ec; [|discriminate].
    destruct (2 <=? List.length cs)%nat eqn:E2.
    + destruct (IH _ H) as (new & Hout & Hnew).
      exists (cs :: new). split.
      * rewrite Hout, <- app_assoc. reflexivity.
      * exists cs. split; [reflexivity|]. rewrite E2.
        exists new. now split.
    + destruct (IH _ H) as (new & Hout & Hnew).
      exists new. split; [exact Hout|].
      exists cs. split; [reflexivity|]. now rewrite E2.
Qed.

Lemma fetched_roads (elements : list element) (new : list linestring) :
  fetched elements new ->
  forall r, In r new ->
    (2 <= List.length r)%nat
    /\ exists el geometry,
         In el elements /\ el_geometry el = Some geometry
         /\ coords geometry = Found r.
Proof.
  revert new. induction elements as [|el rest IH]; intros new H r Hin;
    cbn [fetched] in H.
  - subst new. destruct Hin.
  - destruct (el_geometry el) as [geometry|] eqn:Eg.
    + destruct H as (cs & Hcs & H).
      destruct (2 <=? List.length cs)%nat eqn:E2.
      * destruct H as (new' & -> & Hnew). destruct Hin as [<-|Hin].
        -- split; [now apply Nat.leb_le|].
           exists el, geometry. repeat split; auto. now left.
        -- destruct (IH _ Hnew r Hin) as (Hlen & el' & g' & Hel & Hg & Hc).
           split; [exact Hlen|]. exists el', g'. repeat split; auto.
           now right.
      * destruct (IH _ H r Hin) as (Hlen & el' & g' & Hel & Hg & Hc).
        split; [exact Hlen|]. exists el', g'. repeat split; auto. now right.
    + destruct (IH _ H r Hin) as (Hlen & el' & g' & Hel & Hg & Hc).
      split; [exact Hlen|]. exists el', g'. repeat split; auto. now right.
Qed.

Lemma fetch_loop_key (elements : list element) (roads : list linestring)
      (key : string) :
  fetch_loop elements roads = KeyError key ->
  exists el geometry pt,
    In el elements /\ el_geometry el = Some geometry /\ In pt geometry
    /\ ((key = "lon"%string /\ pt_lon pt = None)
        \/ (key = "lat"%string /\ pt_lat pt = None)).
Proof.
  revert roads. induction elements as [|el rest IH]; intros roads H;
    cbn [fetch_loop] in H; [discriminate|].
  assert (Hrest : forall acc, fetch_loop rest acc = KeyError key ->
            exists el' geometry pt,
              In el' (el :: rest) /\ el_geometry el' = Some geometry
              /\ In pt geometry
              /\ ((key = "lon"%string /\ pt_lon pt = None)
                  \/ (key = "lat"%string /\ pt_lat pt = None))).
  { intros acc Hacc. destruct (IH _ Hacc) as (el' & g & pt & Hin & Hg & Hpt).
    exists el', g, pt. split; [now right|]. now split. }
  destruct (el_geometry el) as [geometry|] eqn:Eg; [|now apply (Hrest roads)].
  destruct (coords geometry) as [cs|key'] eqn:Ec.
  - destruct (2 <=? List.length cs)%nat; eapply Hrest; exact H.
  - injection H as ->. apply coords_key in Ec.
    destruct Ec as (pt & Hin & Hk).
    exists el, geometry, pt. split; [now left|]. now split.
Qed.

(** X16.  [fetch_nearby_roads] either returns roads or stops on a
    geometry point that lacks "lon" or "lat" (a KeyError naming that key);
    an answer without "elements" gives no roads.  Every road it returns has
    at least two points and is, coordinate by coordinate in (lon, lat)
    order, the geometry of one of the answer's elements. *)
Theorem fetch_nearby_roads_keeps_ways_of_two_points :
  fetch_nearby_roads None = Found []
  /\ (forall (elements : list element) (roads : list linestring),
         fetch_nearby_roads (Some elements) = Found roads ->
         forall r, In r roads ->
           (2 <= List.length r)%nat
           /\ exists el geometry,
                In el elements /\ el_geometry el = Some geometry
                /\ List.length r = List.length geometry
                /\ forall (i : nat) (pt : geometry_point),
                     nth_error geometry i = Some pt ->
                     exists c, nth_error r i = Some c
                               /\ pt_lon pt = Some (fst c)
                               /\ pt_lat pt = Some (snd c))
  /\ (forall (elements : list element) (key : string),
         fetch_nearby_roads (Some elements) = KeyError key ->
         exists el geometry pt,
           In el elements /\ el_geometry el = Some geometry
           /\ In pt geometry
           /\ ((key = "lon"%string /\ pt_lon pt = None)
               \/ (key = "lat"%string /\ pt_lat pt = None))).
Proof.
  split; [reflexivity|]. split.
  - intros elements roads H r Hin. unfold fetch_nearby_roads in H.
    apply fetch_loop_found in H. destruct H as (new & -> & Hnew).
    simpl in Hin.
    destruct (fetched_roads _ _ Hnew r Hin) as (Hlen & el & g & Hel & Hg & Hc).
    split; [exact Hlen|]. exists el, g.
    destruct (coords_found _ _ Hc) as [Hl Hpts]. repeat split; auto.
  - intros elements key H. now apply (fetch_loop_key elements []).
Qed.

(** X17.  Fetching and searching compose: every fetched road has the two
    points the geometry operations need, so on a non-empty fetch result the
    search selects the first projected road at least distance from the
    house, and reports the bearing to the nearest point of that road and
    the distance to it, each rounded to two decimals. *)
Theorem fetched_roads_give_bearing_to_nearest_point
        (to_3857_xy : R -> R -> point) (lon lat : R)
        (data : option (list element)) (roads : list linestring) :
  fetch_nearby_roads data = Found roads ->
  roads <> [] ->
  exists (i : nat) (best : linestring),
    first_minimum (shapely_distance (to_3857_xy lon lat))
                  (map (project_road to_3857_xy) roads) i best
    /\ (2 <= List.length best)%nat
    /\ nearest_road_bearing to_3857_xy lon lat roads
       = (let p := to_3857_xy lon lat in
         let q := shapely_interpolate best (shapely_project best p) in
         let bearing :=
           bearing_from_point_to_point (fst p) (snd p) (fst q) (snd q) in
         Ok {| rep_lat := lat; rep_lon := lon;
               rep_bearing_deg := Some (Py.round2 bearing);
               rep_compass := Some (bearing_to_compass bearing);
               rep_distance_to_road_m := Some (Py.round2 (euclid p q));
               rep_note := None |})
    /\ euclid (to_3857_xy lon lat)
              (shapely_interpolate best
                 (shapely_project best (to_3857_xy lon lat)))
       = shapely_distance (to_3857_xy lon lat) best.
Proof.
  intros H Hne.
  assert (Hlen : forall r, In r roads -> (2 <= List.length r)%nat).
  { intros r Hin. unfold fetch_nearby_roads in H.
    apply fetch_loop_found in H. destruct H as (new & -> & Hnew).
    simpl in Hin. now destruct (fetched_roads _ _ Hnew r Hin). }
  destruct (shapely_report to_3857_xy lon lat roads Hne Hlen)
    as (i & best & Hfirst & Hdist & Hrep).
  exists i, best. split; [exact Hfirst|]. split.
  - destruct Hfirst as (Hnth & _). apply nth_error_In in Hnth.
    apply in_map_iff in Hnth. destruct Hnth as (r & <- & Hr).
    unfold project_road. rewrite length_map. now apply Hlen.
  - split; [exact Hrep|]. now symmetry.
Qed.

End Orientation.

(** ** The claims at concrete inputs

    [PI] is what [math.atan2] returns for the zero vectors the image-plane
    workflows build (a positive zero [dx] against a negated zero [dy]). *)

Lemma distinct_along_x (x0 x1 y0 y1 : R) : x0 <> x1 -> (x0, y0) <> (x1, y1).
Proof. intros Hx Heq. apply Hx. now inversion Heq. Qed.

Lemma frontage_on_x_axis_tie (x0 x1 t0 t1 : R) :
  x0 <> x1 ->
  dot (frontage_n_left (x0, 0) (x1, 0))
      (frontage_to_street (x0, 0) (x1, 0) (t0, 0) (t1, 0)) = 0.
Proof.
  intros Hx.
  rewrite frontage_n_left_perp by now apply distinct_along_x.
  assert (Hu : snd (unit (subtract (x1, 0) (x0, 0))) = 0).
  { apply unit_snd_zero. unfold subtract. simpl. ring. }
  assert (Hs : snd (frontage_to_street (x0, 0) (x1, 0) (t0, 0) (t1, 0)) = 0).
  { unfold frontage_to_street. apply unit_snd_zero.
    unfold subtract, midpoint. simpl. field. }
  unfold dot, perp. simpl fst. simpl snd. rewrite Hu, Hs. ring.
Qed.

(** C1 at the frontage (0,0)-(1,0) with the street (0,3)-(1,3). *)
Lemma frontage_n_face_toward_street_witness :
  ((0, 0) : point) <> (1, 0)
  /\ (frontage_n_face (0, 0) (1, 0) (0, 3) (1, 3) = frontage_n_left (0, 0) (1, 0)
      \/ frontage_n_face (0, 0) (1, 0) (0, 3) (1, 3) = frontage_n_right (0, 0) (1, 0)).
Proof.
  assert (Hne : ((0, 0) : point) <> (1, 0)) by (apply distinct_along_x; lra).
  split; [exact Hne|].
  exact (proj1 (proj2 (frontage_n_face_toward_street
                         (0, 0) (1, 0) (0, 3) (1, 3) Hne))).
Defined.

(** C1 as stated fails on a tie: with the street mid-point on the frontage
    line, the two labellings select opposite normals. *)
Lemma frontage_swapped_labels_differ_on_tie :
  frontage_n_face_swapped (0, 0) (2, 0) (3, 0) (5, 0)
  <> frontage_n_face (0, 0) (2, 0) (3, 0) (5, 0).
Proof.
  assert (Hne : ((0, 0) : point) <> (2, 0)) by (apply distinct_along_x; lra).
  destruct (frontage_tie (0, 0) (2, 0) (3, 0) (5, 0) Hne) as (Hf & Hs & Hd).
  - apply frontage_on_x_axis_tie. lra.
  - rewrite Hf, Hs. exact Hd.
Qed.

(** C2 at the zero-length frontage (0,0)-(0,0). *)
Lemma workflow_frontage_zero_length_witness :
  ((0, 0) : point) = (0, 0)
  /\ workflow_frontage PI [(0, 0); (0, 0)] [(0, 5); (1, 5)]
     = Ok (normalize_angle_deg (Py.degrees PI),
           compass_8 (normalize_angle_deg (Py.degrees PI))).
Proof.
  split; [reflexivity|].
  exact (proj1 (proj2 (proj2 (proj2
           (workflow_frontage_zero_length PI (0, 0) (0, 0) (0, 5) (1, 5)
                                          eq_refl))))).
Defined.

(** C2 as stated fails: for the zero-length frontage (0,0)-(0,0) the
    workflow raises nothing and returns the bearing 180 with label S. *)
Lemma workflow_frontage_zero_length_returns_south :
  workflow_frontage PI [(0, 0); (0, 0)] [(0, 5); (1, 5)] = Ok (180, "S"%string)
  /\ ~ raises (workflow_frontage PI [(0, 0); (0, 0)] [(0, 5); (1, 5)]).
Proof.
  assert (Hb : normalize_angle_deg (Py.degrees PI) = 180).
  { rewrite normalize_angle_deg_fmod.
    replace (Py.degrees PI) with 180
      by (unfold Py.degrees; field; apply PI_neq0).
    apply fmod_small; lra. }
  assert (Hw : workflow_frontage PI [(0, 0); (0, 0)] [(0, 5); (1, 5)]
               = Ok (180, "S"%string)).
  { rewrite workflow_frontage_four_points, frontage_n_face_degenerate.
    simpl fst. simpl snd. rewrite bearing_from_vector_zero, Hb.
    do 2 f_equal. apply (compass_8_floor 180 4). lra. }
  split; [exact Hw|]. rewrite Hw. intros [e He]. discriminate He.
Qed.

(** C3 at an OCR reading with the house label and no long word. *)
Lemma empty_candidates_give_no_bearing_witness :
  road_candidates [("13"%string, (40, 60))] = []
  /\ find_orientation PI [("13"%string, (40, 60))] "13"
     = Raise (ValueError "No road label detected").
Proof.
  split; [reflexivity|].
  apply (proj2 (empty_candidates_give_no_bearing PI)
               [("13"%string, (40, 60))] "13"%string eq_refl).
  discriminate.
Defined.

(** C3 as stated fails: with no road the road search returns a report
    instead of raising. *)
Lemma no_roads_is_not_an_error :
  nearest_road_bearing PI planar_xy 0 0 []
  = Ok {| rep_lat := 0; rep_lon := 0; rep_bearing_deg := None;
          rep_compass := None; rep_distance_to_road_m := None;
          rep_note := Some "No roads found nearby"%string |}
  /\ ~ raises (nearest_road_bearing PI planar_xy 0 0 []).
Proof.
  split; [reflexivity|]. intros [e He]. discriminate He.
Qed.

(** C4 at two roads at the same distance 1 from the origin. *)
Lemma nearest_candidate_is_first_minimum_witness :
  [[(-1, 1); (1, 1)]; [(-1, -1); (1, -1)]] <> ([] : list linestring)
  /\ exists (i : nat) (best : linestring),
      first_minimum (shapely_distance (planar_xy 0 0))
                    (map (project_road planar_xy)
                         [[(-1, 1); (1, 1)]; [(-1, -1); (1, -1)]]) i best
      /\ nearest_road planar_xy shapely_distance (planar_xy 0 0)
                      [[(-1, 1); (1, 1)]; [(-1, -1); (1, -1)]] None
         = Some (best, shapely_distance (planar_xy 0 0) best).
Proof.
  assert (Hne : [[(-1, 1); (1, 1)]; [(-1, -1); (1, -1)]] <> ([] : list linestring))
    by discriminate.
  split; [exact Hne|].
  destruct (proj1 (nearest_candidate_is_first_minimum PI)
                  planar_xy shapely_distance shapely_project shapely_interpolate
                  0 0 [[(-1, 1); (1, 1)]; [(-1, -1); (1, -1)]] Hne)
    as (i & best & Hfirst & Hloop & _).
  exists i, best. split; [exact Hfirst | exact Hloop].
Defined.

(** C5 at p = (0,0) and the segment from (5,5) to (5,-5). *)
Lemma nearest_point_on_road_witness :
  le 2 (List.length [((5, 5) : point); (5, - 5)])
  /\ shapely_distance (0, 0) [(5, 5); (5, - 5)]
     = euclid (0, 0) (shapely_interpolate [(5, 5); (5, - 5)]
                        (shapely_project [(5, 5); (5, - 5)] (0, 0))).
Proof.
  assert (Hlen : le 2 (List.length [((5, 5) : point); (5, - 5)]))
    by (simpl; lia).
  split; [exact Hlen|].
  exact (proj1 (proj2 (proj1 (proj2 (nearest_point_on_road PI))
                             (0, 0) [(5, 5); (5, - 5)] Hlen))).
Defined.

(** C5 as stated fails: for a road at distance 1/1000 the report carries
    the distance 0. *)
Lemma reported_distance_is_rounded :
  nearest_road_bearing PI planar_xy 0 0 [[(1 / 1000, 5); (1 / 1000, - 5)]]
  = Ok {| rep_lat := 0; rep_lon := 0;
          rep_bearing_deg := Some 90;
          rep_compass := Some "E"%string;
          rep_distance_to_road_m := Some 0;
          rep_note := None |}
  /\ shapely_distance (0, 0) [(1 / 1000, 5); (1 / 1000, - 5)] = 1 / 1000
  /\ Some 0 <> Some (shapely_distance (0, 0) [(1 / 1000, 5); (1 / 1000, - 5)]).
Proof.
  destruct (vertical_road_report PI (1 / 1000)) as (Hrep & _ & Hd); [lra|].
  assert (Hr : Py.round2 (1 / 1000) = 0).
  { rewrite (round2_below (1 / 1000) 0) by lra. lra. }
  split; [|split].
  - rewrite Hrep, Hr. reflexivity.
  - exact Hd.
  - intros Heq. injection Heq as H0.
    assert (H : 0 = 1 / 1000) by exact (eq_trans H0 Hd). lra.
Qed.



(** C8 at the bearing 100. *)
Lemma compass_8_sector_table_witness :
  0 <= 100 < 360 /\ compass_8 100 = sector_label 100.
Proof.
  assert (Hb : 0 <= 100 < 360) by lra.
  split; [exact Hb|].
  exact (proj1 (proj2 (proj1 compass_8_sector_table 100 Hb))).
Defined.

(** C10 at the frontage (0,0)-(1,0). *)
Lemma perp_orthogonal_same_length_witness :
  ((0, 0) : point) <> (1, 0)
  /\ Py.hypot (fst (frontage_n_left (0, 0) (1, 0)))
              (snd (frontage_n_left (0, 0) (1, 0))) = 1.
Proof.
  assert (Hne : ((0, 0) : point) <> (1, 0)) by (apply distinct_along_x; lra).
  split; [exact Hne|].
  exact (proj1 (proj2 perp_orthogonal_same_length (0, 0) (1, 0) Hne)).
Defined.

(** ** The further properties at concrete inputs *)

(** X1 at the scale 2 and the vector (3,4). *)
Lemma bearing_similarity_invariant_witness :
  0 < 2
  /\ bearing_from_vector PI (2 * 3) (2 * 4) = bearing_from_vector PI 3 4.
Proof.
  assert (Hk : 0 < 2) by lra.
  split; [exact Hk|].
  exact (proj1 (proj1 (bearing_similarity_invariant PI 2 0 0 Hk) 3 4)).
Defined.



(** X4 at the clicks (0,0) and (1,0). *)
Lemma workflow_vector_points_to_second_click_witness :
  ((0, 0) : point) <> (1, 0)
  /\ exists b : R,
      workflow_vector PI [(0, 0); (1, 0)] = Ok (b, sector_label b)
      /\ 0 <= b <= 360.
Proof.
  assert (Hne : ((0, 0) : point) <> (1, 0)) by (apply distinct_along_x; lra).
  split; [exact Hne|].
  destruct (workflow_vector_points_to_second_click PI (0, 0) (1, 0) Hne)
    as (b & Hw & Hb & _).
  exists b. split; [exact Hw | exact Hb].
Defined.

(** X5 at a single click. *)
Lemma workflows_check_click_count_witness :
  List.length [((0, 0) : point)] <> 2%nat
  /\ workflow_vector PI [(0, 0)]
     = Raise (RuntimeError "Expected 2 points, got 1.").
Proof.
  assert (Hlen : List.length [((0, 0) : point)] <> 2%nat) by discriminate.
  split; [exact Hlen|].
  exact (proj1 (workflows_check_click_count PI) [(0, 0)] Hlen).
Defined.

(** X6 at the vector (3,4) and the factor 2. *)
Lemma unit_rescales_witness :
  0 < 2 /\ unit (scale (3, 4) 2) = unit (3, 4).
Proof.
  assert (Hk : 0 < 2) by lra.
  split; [exact Hk|].
  exact (proj1 (proj2 (proj2 (proj2 (proj2 (unit_rescales (3, 4) 2 Hk)))))).
Defined.

(** X7 at the frontage (0,0)-(2,0) with the street (0,5)-(2,5). *)
Lemma workflow_frontage_click_order_witness :
  ((0, 0) : point) <> (2, 0)
  /\ dot (perp (subtract (2, 0) (0, 0)))
         (subtract (midpoint (0, 5) (2, 5)) (midpoint (0, 0) (2, 0))) <> 0
  /\ workflow_frontage PI [(2, 0); (0, 0)] [(0, 5); (2, 5)]
     = workflow_frontage PI [(0, 0); (2, 0)] [(0, 5); (2, 5)].
Proof.
  assert (Hne : ((0, 0) : point) <> (2, 0)) by (apply distinct_along_x; lra).
  assert (Hoff : dot (perp (subtract (2, 0) (0, 0)))
                     (subtract (midpoint (0, 5) (2, 5))
                               (midpoint (0, 0) (2, 0))) <> 0).
  { unfold dot, perp, subtract, midpoint. simpl. lra. }
  split; [exact Hne|]. split; [exact Hoff|].
  exact (proj2 (workflow_frontage_click_order PI)
               (0, 0) (2, 0) (0, 5) (2, 5) Hne Hoff).
Defined.

(** X8 at the frontage (0,0)-(2,0) with the street (0,5)-(2,5). *)
Lemma workflow_frontage_faces_street_witness :
  ((0, 0) : point) <> (2, 0)
  /\ exists b : R,
      workflow_frontage PI [(0, 0); (2, 0)] [(0, 5); (2, 5)]
      = Ok (b, sector_label b)
      /\ 0 <= b <= 360.
Proof.
  assert (Hne : ((0, 0) : point) <> (2, 0)) by (apply distinct_along_x; lra).
  split; [exact Hne|].
  destruct (workflow_frontage_faces_street PI (0, 0) (2, 0) (0, 5) (2, 5) Hne)
    as (b & Hw & Hb & _).
  exists b. split; [exact Hw | exact Hb].
Defined.

(** X9 at the horizontal frontage (0,0)-(2,0) with the street (0,5)-(2,5),
    which lies below it on the screen. *)
Lemma axis_aligned_frontage_faces_street_side_witness :
  0 <> 2
  /\ 0 < snd (midpoint (0, 5) (2, 5))
  /\ workflow_frontage PI [(0, 0); (2, 0)] [(0, 5); (2, 5)]
     = Ok (180, "S"%string).
Proof.
  assert (Hx : 0 <> 2) by lra.
  assert (Hy : 0 < snd (midpoint (0, 5) (2, 5))).
  { unfold midpoint. simpl. lra. }
  split; [exact Hx|]. split; [exact Hy|].
  exact (proj1 (proj1 (axis_aligned_frontage_faces_street_side PI)
                      0 2 0 (0, 5) (2, 5) Hx) Hy).
Defined.

(** X12 at one road, the segment from (1,5) to (1,-5), seen from the
    origin. *)
Lemma report_is_rounded_to_two_decimals_witness :
  [[((1, 5) : point); (1, - 5)]] <> []
  /\ exists best : linestring,
      nearest_road_bearing_from_address
        PI planar_xy shapely_distance shapely_project shapely_interpolate
        0 0 [[(1, 5); (1, - 5)]]
      = (let p := planar_xy 0 0 in
         let q := shapely_interpolate best (shapely_project best p) in
         let bearing :=
           bearing_from_point_to_point PI (fst p) (snd p) (fst q) (snd q) in
         Ok {| rep_lat := 0; rep_lon := 0;
               rep_bearing_deg := Some (Py.round2 bearing);
               rep_compass := Some (compass_8 bearing);
               rep_distance_to_road_m :=
                 Some (Py.round2 (shapely_distance p best));
               rep_note := None |}).
Proof.
  assert (Hne : [[((1, 5) : point); (1, - 5)]] <> []) by discriminate.
  split; [exact Hne|].
  destruct (report_is_rounded_to_two_decimals
              PI planar_xy shapely_distance shapely_project
              shapely_interpolate 0 0 [[(1, 5); (1, - 5)]] Hne)
    as (i & best & _ & Hrep & _).
  exists best. exact Hrep.
Defined.

Lemma two_vertical_roads_unique_nearest (x y : linestring) :
  In x (map (project_road planar_xy) [[(1, 5); (1, - 5)]; [(2, 5); (2, - 5)]]) ->
  In y (map (project_road planar_xy) [[(1, 5); (1, - 5)]; [(2, 5); (2, - 5)]]) ->
  (forall z,
      In z (map (project_road planar_xy)
                [[(1, 5); (1, - 5)]; [(2, 5); (2, - 5)]]) ->
      shapely_distance (planar_xy 0 0) x <= shapely_distance (planar_xy 0 0) z) ->
  (forall z,
      In z (map (project_road planar_xy)
                [[(1, 5); (1, - 5)]; [(2, 5); (2, - 5)]]) ->
      shapely_distance (planar_xy 0 0) y <= shapely_distance (planar_xy 0 0) z) ->
  x = y.
Proof.
  intros Hx Hy Hminx Hminy.
  destruct (vertical_road_report PI 1) as (_ & _ & H1); [lra|].
  destruct (vertical_road_report PI 2) as (_ & _ & H2); [lra|].
  assert (Hin1 : In [((1, 5) : point); (1, - 5)]
                    (map (project_road planar_xy)
                         [[(1, 5); (1, - 5)]; [(2, 5); (2, - 5)]]))
    by (left; reflexivity).
  pose proof (Hminx _ Hin1) as Hx1. pose proof (Hminy _ Hin1) as Hy1.
  change (planar_xy 0 0) with ((0, 0) : point) in Hx1, Hy1.
  destruct Hx as [Hx|[Hx|[]]]; destruct Hy as [Hy|[Hy|[]]];
    subst x y; try reflexivity; exfalso.
  - change (shapely_distance (0, 0) [(2, 5); (2, - 5)]
            <= shapely_distance (0, 0) [(1, 5); (1, - 5)]) in Hy1.
    rewrite H1, H2 in Hy1. lra.
  - change (shapely_distance (0, 0) [(2, 5); (2, - 5)]
            <= shapely_distance (0, 0) [(1, 5); (1, - 5)]) in Hx1.
    rewrite H1, H2 in Hx1. lra.
Qed.

(** X13 at two roads at the distances 1 and 2, fetched in either order. *)
Lemma nearest_road_order_independent_witness :
  Permutation [[((1, 5) : point); (1, - 5)]; [(2, 5); (2, - 5)]]
              [[(2, 5); (2, - 5)]; [(1, 5); (1, - 5)]]
  /\ nearest_road_bearing_from_address
       PI planar_xy shapely_distance shapely_project shapely_interpolate
       0 0 [[(2, 5); (2, - 5)]; [(1, 5); (1, - 5)]]
     = nearest_road_bearing_from_address
         PI planar_xy shapely_distance shapely_project shapely_interpolate
         0 0 [[(1, 5); (1, - 5)]; [(2, 5); (2, - 5)]].
Proof.
  assert (Hperm : Permutation [[((1, 5) : point); (1, - 5)]; [(2, 5); (2, - 5)]]
                              [[(2, 5); (2, - 5)]; [(1, 5); (1, - 5)]])
    by apply perm_swap.
  split; [exact Hperm|].
  exact (proj2 (nearest_road_order_independent
                  PI planar_xy shapely_distance shapely_project
                  shapely_interpolate 0 0 _ _ Hperm
                  two_vertical_roads_unique_nearest)).
Defined.

(** X14 at an OCR reading with the house label "13" and the word
    "Street" above it. *)
Lemma find_orientation_names_a_long_word_witness :
  exists (dir8 : string) (b : R) (road_point : point),
    find_orientation PI [("13"%string, (0, 0)); ("Street"%string, (0, - 10))]
                     "13"
    = Ok (dir8, b, "Street"%string)
    /\ In ("Street"%string, road_point)
          [("13"%string, (0, 0)); ("Street"%string, (0, - 10))]
    /\ 0 <= b < 360
    /\ dir8 = sector_label b.
Proof.
  pose (texts := [("13"%string, ((0, 0) : point));
                  ("Street"%string, ((0, - 10) : point))]).
  pose (house := Py.mean_points (house_points texts "13")).
  pose (b := bearing_from_vec PI (0 - fst house) (- 10 - snd house)).
  assert (Hok : find_orientation PI texts "13"
                = Ok (compass8 b, b, "Street"%string)) by reflexivity.
  destruct (find_orientation_names_a_long_word
              PI texts "13"%string (compass8 b) b "Street"%string Hok)
    as (road_point & Hin & _ & _ & Hb & Hd & _).
  exists (compass8 b), b, road_point.
  split; [exact Hok|]. split; [exact Hin|]. split; [exact Hb | exact Hd].
Defined.

(** X15 at an OCR reading whose only word is the target label "House". *)
Lemma find_orientation_long_label_finds_itself_witness :
  (4 < String.length "House")%nat
  /\ house_points [("House"%string, (3, 4))] "House" = [(3, 4)]
  /\ exists road : string,
      find_orientation PI [("House"%string, (3, 4))] "House"
      = Ok (compass8 (bearing_from_vec PI 0 0), bearing_from_vec PI 0 0, road).
Proof.
  assert (Hlen : (4 < String.length "House")%nat) by (simpl; lia).
  assert (Hh : house_points [("House"%string, ((3, 4) : point))] "House"
               = [(3, 4)]) by reflexivity.
  split; [exact Hlen|]. split; [exact Hh|].
  destruct (find_orientation_long_label_finds_itself
              PI [("House"%string, (3, 4))] "House"%string (3, 4) Hlen Hh)
    as (road & _ & _ & Hok).
  exists road. exact Hok.
Defined.

(** X16 at an answer with one way of two points and one way of a single
    point. *)
Lemma fetch_nearby_roads_keeps_ways_of_two_points_witness :
  fetch_nearby_roads
    (Some [ {| el_geometry :=
                 Some [ {| pt_lon := Some 1; pt_lat := Some 5 |};
                        {| pt_lon := Some 1; pt_lat := Some (- 5) |} ] |};
            {| el_geometry :=
                 Some [ {| pt_lon := Some 7; pt_lat := Some 7 |} ] |};
            {| el_geometry := None |} ])
  = Found [[(1, 5); (1, - 5)]]
  /\ le 2 (List.length [((1, 5) : point); (1, - 5)]).
Proof.
  pose (elements :=
          [ {| el_geometry :=
                 Some [ {| pt_lon := Some 1; pt_lat := Some 5 |};
                        {| pt_lon := Some 1; pt_lat := Some (- 5) |} ] |};
            {| el_geometry :=
                 Some [ {| pt_lon := Some 7; pt_lat := Some 7 |} ] |};
            {| el_geometry := None |} ]).
  assert (Hf : fetch_nearby_roads (Some elements)
               = Found [[(1, 5); (1, - 5)]]) by reflexivity.
  split; [exact Hf|].
  exact (proj1 (proj1 (proj2 fetch_nearby_roads_keeps_ways_of_two_points)
                      elements [[(1, 5); (1, - 5)]] Hf
                      [(1, 5); (1, - 5)] (or_introl eq_refl))).
Defined.

(** X17 at an answer with the one way from (1,5) to (1,-5), searched
    from the origin. *)
Lemma fetched_roads_give_bearing_to_nearest_point_witness :
  fetch_nearby_roads
    (Some [ {| el_geometry :=
                 Some [ {| pt_lon := Some 1; pt_lat := Some 5 |};
                        {| pt_lon := Some 1; pt_lat := Some (- 5) |} ] |} ])
  = Found [[(1, 5); (1, - 5)]]
  /\ [[((1, 5) : point); (1, - 5)]] <> []
  /\ exists best : linestring,
      (2 <= List.length best)%nat
      /\ euclid (planar_xy 0 0)
                (shapely_interpolate best
                   (shapely_project best (planar_xy 0 0)))
         = shapely_distance (planar_xy 0 0) best.
Proof.
  pose (data :=
          Some [ {| el_geometry :=
                      Some [ {| pt_lon := Some 1; pt_lat := Some 5 |};
                             {| pt_lon := Some 1; pt_lat := Some (- 5) |} ] |} ]).
  assert (Hf : fetch_nearby_roads data = Found [[(1, 5); (1, - 5)]])
    by reflexivity.
  assert (Hne : [[((1, 5) : point); (1, - 5)]] <> []) by discriminate.
  split; [exact Hf|]. split; [exact Hne|].
  destruct (fetched_roads_give_bearing_to_nearest_point
              PI planar_xy 0 0 data [[(1, 5); (1, - 5)]] Hf Hne)
    as (i & best & _ & Hlen & _ & Hd).
  exists best. split; [exact Hlen | exact Hd].
Defined.

